(** * DebuggerAgent: a shallow embedding of the test-remediation pipeline

    The development follows [ai_agent_project/tests/__init__.py]: the
    failure parser, the pattern matchers, the learning store, the three fix
    tiers and the retry loop.  Python [str] values are Rocq strings (code
    points below 256), the [dict] that keeps the learned fixes is an
    association list in insertion order, and the file system is a finite
    map from absolute paths to file contents. *)

From Stdlib Require Import String Ascii ZArith List Lia.
From stdpp Require Import base option list gmap strings.


#[local] Arguments String.append !_ _ / : simpl nomatch.

(** ** Python string primitives *)

Module PyStr.

Definition LF : ascii := "010"%char.
Definition TAB : ascii := "009"%char.

(** [s.startswith(p)], returning what follows the prefix. *)
Fixpoint strip_prefix (p s : string) : option string :=
  match p with
  | EmptyString => Some s
  | String a p' =>
      match s with
      | EmptyString => None
      | String b s' => if Ascii.eqb a b then strip_prefix p' s' else None
      end
  end.

Definition startswith (s p : string) : bool :=
  match strip_prefix p s with Some _ => true | None => false end.

(** [needle in hay]. *)
Fixpoint str_in (needle hay : string) : bool :=
  startswith hay needle
  || match hay with
     | EmptyString => false
     | String _ hay' => str_in needle hay'
     end.

(** [s.replace(old, new)] for a one-character [old]. *)
Fixpoint replace_char (old : ascii) (new : string) (s : string) : string :=
  match s with
  | EmptyString => EmptyString
  | String c s' =>
      if Ascii.eqb c old then new +:+ replace_char old new s'
      else String c (replace_char old new s')
  end.

(** The lines of a text, each with its line feed, as [readlines] and
    [splitlines(keepends=True)] on decoded text give them. *)
Fixpoint readlines (s : string) : list string :=
  match s with
  | EmptyString => []
  | String c s' =>
      if Ascii.eqb c LF then String c EmptyString :: readlines s'
      else match readlines s' with
           | [] => [String c EmptyString]
           | l :: ls => String c l :: ls
           end
  end.

(** [writelines]: the lines one after the other, nothing added. *)
Fixpoint writelines (ls : list string) : string :=
  match ls with
  | [] => EmptyString
  | l :: ls' => l +:+ writelines ls'
  end.

(** [s.split(sep)] for a one-character separator. *)
Fixpoint split_char (sep : ascii) (s : string) : list string :=
  match s with
  | EmptyString => [EmptyString]
  | String c s' =>
      if Ascii.eqb c sep then EmptyString :: split_char sep s'
      else match split_char sep s' with
           | [] => [String c EmptyString]
           | l :: ls => String c l :: ls
           end
  end.

(** [sep.join(parts)]. *)
Fixpoint join (sep : string) (parts : list string) : string :=
  match parts with
  | [] => EmptyString
  | [p] => p
  | p :: ps => p +:+ sep +:+ join sep ps
  end.

Fixpoint forall_char (f : ascii → bool) (s : string) : bool :=
  match s with
  | EmptyString => true
  | String c s' => f c && forall_char f s'
  end.

Definition not_LF (c : ascii) : bool := negb (Ascii.eqb c LF).

(** Whitespace removed by [str.strip()], for code points below 256. *)
Definition is_py_space (c : ascii) : bool :=
  let n := nat_of_ascii c in
  ((9 <=? n) && (n <=? 13)) || ((28 <=? n) && (n <=? 32))
  || (n =? 133) || (n =? 160).

Fixpoint lstrip (s : string) : string :=
  match s with
  | EmptyString => EmptyString
  | String c s' => if is_py_space c then lstrip s' else s
  end.

Fixpoint rstrip (s : string) : string :=
  match s with
  | EmptyString => EmptyString
  | String c s' =>
      match rstrip s' with
      | EmptyString => if is_py_space c then EmptyString else String c EmptyString
      | r => String c r
      end
  end.

Definition strip (s : string) : string := rstrip (lstrip s).

End PyStr.
Import PyStr.

(** ** The fragment of [re] the agent uses

    A pattern is a sequence of literals and of capturing repetitions of a
    character class, one or more times, lazy ([(.+?)]) or greedy ([(.+)],
    [(\d+)]).  [match_here] is a backtracking matcher in the order Python
    tries the alternatives: a lazy group grows one character at a time,
    a greedy one shrinks. *)

Module Re.

Inductive tok : Type :=
| Lit (s : string)
| Lazy1 (cls : ascii → bool)
| Greedy1 (cls : ascii → bool).

Definition pattern := list tok.

(** The dot: any character but a line feed. *)
Definition dot : ascii → bool := not_LF.

(** [\d] on code points below 256. *)
Definition digit (c : ascii) : bool :=
  let n := nat_of_ascii c in (48 <=? n) && (n <=? 57).

(** Groups captured and the text left after the match. *)
Fixpoint match_here (p : pattern) (s : string) {struct p}
  : option (list string * string) :=
  match p with
  | [] => Some ([], s)
  | Lit l :: p' =>
      match strip_prefix l s with
      | Some s' => match_here p' s'
      | None => None
      end
  | Lazy1 cls :: p' =>
      (fix lazy (s : string) : option (list string * string) :=
         match s with
         | EmptyString => None
         | String c s' =>
             if cls c then
               match match_here p' s' with
               | Some (gs, r) => Some (String c EmptyString :: gs, r)
               | None =>
                   match lazy s' with
                   | Some (g :: gs, r) => Some (String c g :: gs, r)
                   | _ => None
                   end
               end
             else None
         end) s
  | Greedy1 cls :: p' =>
      (fix greedy (s : string) : option (list string * string) :=
         match s with
         | EmptyString => None
         | String c s' =>
             if cls c then
               match greedy s' with
               | Some (g :: gs, r) => Some (String c g :: gs, r)
               | _ =>
                   match match_here p' s' with
                   | Some (gs, r) => Some (String c EmptyString :: gs, r)
                   | None => None
                   end
               end
             else None
         end) s
  end.

(** [re.search]: the leftmost match, as the text before it, the groups
    and the text after it. *)
Fixpoint search (p : pattern) (s : string)
  : option (string * list string * string) :=
  match match_here p s with
  | Some (gs, r) => Some (EmptyString, gs, r)
  | None =>
      match s with
      | EmptyString => None
      | String c s' =>
          match search p s' with
          | Some (pre, gs, r) => Some (String c pre, gs, r)
          | None => None
          end
      end
  end.

(** [re.finditer] for a pattern that matches no empty text: each search
    resumes where the previous match ended. *)
Fixpoint finditer_from (fuel : nat) (p : pattern) (s : string)
  : list (list string) :=
  match fuel with
  | O => []
  | S n =>
      match search p s with
      | Some (_, gs, r) => gs :: finditer_from n p r
      | None => []
      end
  end.

Definition finditer (p : pattern) (s : string) : list (list string) :=
  finditer_from (S (String.length s)) p s.

End Re.

(** ** Failure records and the failure parser *)

Record FailureRecord : Type := mkFailure {
  f_file : string;
  f_test : string;
  f_error : string
}.

(** [re.compile(r"FAILED (.+?)::(.+?) - (.+)")] *)
Definition failure_pattern : Re.pattern :=
  [Re.Lit "FAILED "; Re.Lazy1 Re.dot; Re.Lit "::"; Re.Lazy1 Re.dot;
   Re.Lit " - "; Re.Greedy1 Re.dot].

Definition record_of_groups (gs : list string) : option FailureRecord :=
  match gs with
  | [f; t; e] => Some (mkFailure f t e)
  | _ => None
  end.

(** [parse_test_failures]: one record per match of [failure_pattern], in the
    order [finditer] yields them. *)
Definition parse_test_failures (test_output : string) : list FailureRecord :=
  omap record_of_groups (Re.finditer failure_pattern test_output).


(** ** POSIX paths ([posixpath]) *)

Module Path.

Fixpoint ends_with_slash (s : string) : bool :=
  match s with
  | EmptyString => false
  | String c EmptyString => Ascii.eqb c "/"
  | String _ s' => ends_with_slash s'
  end.

(** [os.path.join(a, b)] *)
Definition join2 (a b : string) : string :=
  if startswith b "/" then b
  else if String.eqb a EmptyString || ends_with_slash a then a +:+ b
  else a +:+ "/" +:+ b.

(** [os.path.join] of a list of parts; with no part at all Python raises. *)
Definition join_all (parts : list string) : option string :=
  match parts with
  | [] => None
  | a :: ps => Some (fold_left join2 ps a)
  end.

Definition norm_step (initial_slashes : nat) (acc : list string)
    (comp : string) : list string :=
  if String.eqb comp EmptyString || String.eqb comp "." then acc
  else if negb (String.eqb comp "..")
          || (Nat.eqb initial_slashes 0 && Nat.eqb (length acc) 0)
          || match last acc with
             | Some c => String.eqb c ".."
             | None => false
             end
       then acc ++ [comp]
       else removelast acc.

Fixpoint slashes (n : nat) : string :=
  match n with
  | O => EmptyString
  | S n' => String "/" (slashes n')
  end.

(** [os.path.normpath] *)
Definition normpath (path : string) : string :=
  if String.eqb path EmptyString then "."
  else
    let initial_slashes :=
      if startswith path "/" then
        if startswith path "//" && negb (startswith path "///") then 2 else 1
      else 0 in
    let comps := fold_left (norm_step initial_slashes) (split_char "/" path) [] in
    let path' := slashes initial_slashes +:+ join "/" comps in
    if String.eqb path' EmptyString then "." else path'.

(** [os.path.abspath] in the working directory [cwd]. *)
Definition abspath (cwd path : string) : string :=
  normpath (if startswith path "/" then path else join2 cwd path).

End Path.

(** ** Exceptions and results *)

Inductive exn : Type :=
| TypeError
| AttributeError
| FileNotFoundError
| ReError
| JSONDecodeError
| ExternalError.

Inductive result (A : Type) : Type :=
| Ret (a : A)
| Raise (e : exn).
Arguments Ret {A} a.
Arguments Raise {A} e.

(** ** Parsed JSON payloads, as [json.loads] returns them *)

#[local] Unset Elimination Schemes.
Inductive json : Type :=
| JNull
| JBool (b : bool)
| JInt (z : Z)
| JFloat (num den : Z)
| JStr (s : string)
| JList (l : list json)
| JDict (d : list (string * json)).
#[local] Set Elimination Schemes.

Module PyDict.
Section Dict.
Context {V : Type}.

(** [d.get(k)] *)
Fixpoint get (k : string) (d : list (string * V)) : option V :=
  match d with
  | [] => None
  | (k', v) :: d' => if String.eqb k' k then Some v else get k d'
  end.

(** [d[k] = v]: an existing key keeps its place, a new one goes last. *)
Fixpoint set (k : string) (v : V) (d : list (string * V)) : list (string * V) :=
  match d with
  | [] => [(k, v)]
  | (k', v') :: d' =>
      if String.eqb k' k then (k', v) :: d' else (k', v') :: set k v d'
  end.

Definition keys (d : list (string * V)) : list string := map fst d.
End Dict.
End PyDict.

(** ** The file system and the agent's state *)

(** The regular files of the working tree, each with the text that reading
    it in text mode gives, line feeds as line ends.  Directories, and
    texts that hold a carriage return, are outside the model. *)
Abbreviation FS := (gmap string string).

Inductive event : Type :=
| EvTestRun
| EvLLM (chunks : list string) (error : string)
| EvRollback (files : list string)
| EvPush (message : string).

Record World : Type := mkWorld {
  w_fs : FS;                            (* files on disk *)
  w_db : list (string * string);        (* self.learning_db *)
  w_log : list event                    (* calls to the collaborators, latest last *)
}.

Definition with_fs (w : World) (fs : FS) : World :=
  mkWorld fs (w_db w) (w_log w).
Definition with_db (w : World) (db : list (string * string)) : World :=
  mkWorld (w_fs w) db (w_log w).
Definition emit (w : World) (e : event) : World :=
  mkWorld (w_fs w) (w_db w) (w_log w ++ [e]).

(** ** The collaborators that are not part of the agent's source

    [DebugAgentUtils], the test runner, the JSON and template parts of the
    standard library that depend on text the agent does not control, and
    [_update_config_key], which the class calls but does not define. *)

Class Collaborators : Type := {
  cwd : string;
  (** stdout and stderr of the test run, or the text [run_tests] returns
      when the runner cannot start *)
  run_pytest : FS → string;
  PatchSet : Type;
  patch_len : PatchSet → nat;
  deepseek_chunk_code : string → result (list string);
  run_deepseek_ollama_analysis : list string → string → result string;
  parse_diff_suggestion : string → result (option PatchSet);
  apply_diff_patch : list string → PatchSet → FS → FS * result unit;
  rollback_changes_vcs : list string → FS → FS * result unit;
  update_config_key : string → json → json → FS → FS * result bool;
  json_loads : string → result json;
  (** [re.search] and [re.sub] for the call-site pattern, which is built at
      run time from the function name found in the error text *)
  re_search_call : string → string → result bool;
  re_sub_call : string → string → string → result string;
  (** the replacement template of [re.sub], compiled *)
  re_template : string → result (list string → string)
}.

(** ** State and exceptions *)

Definition M (A : Type) : Type := World → World * result A.

Definition ret {A} (a : A) : M A := λ w, (w, Ret a).
Definition raise {A} (e : exn) : M A := λ w, (w, Raise e).
Definition bind {A B} (m : M A) (k : A → M B) : M B :=
  λ w, match m w with
       | (w', Ret a) => k a w'
       | (w', Raise e) => (w', Raise e)
       end.
(** [try: m except Exception: h] *)
Definition try_except {A} (m : M A) (h : exn → M A) : M A :=
  λ w, match m w with
       | (w', Raise e) => h e w'
       | r => r
       end.
Definition lift {A} (r : result A) : M A := λ w, (w, r).
Definition on_fs {A} (f : FS → FS * result A) : M A :=
  λ w, let '(fs', r) := f (w_fs w) in (with_fs w fs', r).
Definition log_event (e : event) : M unit := λ w, (emit w e, Ret tt).

Declare Scope agent_scope.
Notation "'let*' x ':=' m 'in' k" := (bind m (λ x, k))
  (at level 100, x pattern, m at next level, right associativity,
   only parsing) : agent_scope.
Notation "m ';;' k" := (bind m (λ _, k))
  (at level 100, right associativity, only parsing) : agent_scope.
Local Open Scope agent_scope.

(** ** The learning store's file format

    [json.dump(db, f, indent=4)] and [json.load(f)] on the documents the
    store holds: one object whose keys and values are strings.  Other JSON
    documents are outside the declared type [Dict[str, str]] of the store
    and are not given a value here. *)

Module Json.

Definition DQ : ascii := "034"%char.
Definition BS : ascii := "092"%char.

Definition hex_digit (n : nat) : ascii :=
  match n with
  | 0 => "0" | 1 => "1" | 2 => "2" | 3 => "3" | 4 => "4" | 5 => "5"
  | 6 => "6" | 7 => "7" | 8 => "8" | 9 => "9" | 10 => "a" | 11 => "b"
  | 12 => "c" | 13 => "d" | 14 => "e" | _ => "f"
  end%char.

(** [ensure_ascii] escaping of one character. *)
Definition escape_char (c : ascii) : string :=
  let n := nat_of_ascii c in
  if Ascii.eqb c DQ then String BS (String DQ EmptyString)
  else if Ascii.eqb c BS then String BS (String BS EmptyString)
  else if Nat.eqb n 10 then String BS "n"
  else if Nat.eqb n 13 then String BS "r"
  else if Nat.eqb n 9 then String BS "t"
  else if Nat.eqb n 8 then String BS "b"
  else if Nat.eqb n 12 then String BS "f"
  else if (32 <=? n) && (n <=? 126) then String c EmptyString
  else String BS (String "u" (String "0" (String "0"
         (String (hex_digit (n / 16)) (String (hex_digit (n mod 16)) EmptyString))))).

Fixpoint escape (s : string) : string :=
  match s with
  | EmptyString => EmptyString
  | String c s' => escape_char c +:+ escape s'
  end.

Definition encode_string (s : string) : string :=
  String DQ (escape s +:+ String DQ EmptyString).

Definition indent4 : string := "    ".

Definition encode_item (kv : string * string) : string :=
  indent4 +:+ encode_string (fst kv) +:+ ": " +:+ encode_string (snd kv).

(** [json.dumps(db, indent=4)] *)
Definition dumps (db : list (string * string)) : string :=
  match db with
  | [] => "{}"
  | _ => String "{" (String LF
           (join (String "," (String LF EmptyString)) (map encode_item db)
              +:+ String LF "}"))
  end.

Definition is_ws (c : ascii) : bool :=
  let n := nat_of_ascii c in
  Nat.eqb n 32 || Nat.eqb n 9 || Nat.eqb n 10 || Nat.eqb n 13.

Fixpoint skip_ws (s : string) : string :=
  match s with
  | EmptyString => EmptyString
  | String c s' => if is_ws c then skip_ws s' else s
  end.

Definition hex_value (c : ascii) : option nat :=
  let n := nat_of_ascii c in
  if (48 <=? n) && (n <=? 57) then Some (n - 48)
  else if (97 <=? n) && (n <=? 102) then Some (n - 87)
  else if (65 <=? n) && (n <=? 70) then Some (n - 55)
  else None.

(** A [\uXXXX] escape; code points from 256 on have no character here. *)
Definition unicode_escape (a b c d : ascii) : option ascii :=
  match hex_value a, hex_value b, hex_value c, hex_value d with
  | Some 0, Some 0, Some h, Some l => Some (ascii_of_nat (16 * h + l))
  | _, _, _, _ => None
  end.

Definition simple_escape (e : ascii) : option ascii :=
  if Ascii.eqb e DQ then Some DQ
  else if Ascii.eqb e BS then Some BS
  else match e with
       | "/" => Some "/"
       | "b" => Some "008"
       | "f" => Some "012"
       | "n" => Some "010"
       | "r" => Some "013"
       | "t" => Some "009"
       | _ => None
       end%char.

(** The characters of a string literal after its opening quote, up to
    the closing one, and the text that follows. *)
Fixpoint scan_string (s : string) : option (string * string) :=
  match s with
  | EmptyString => None
  | String c s' =>
      if Ascii.eqb c DQ then Some (EmptyString, s')
      else if Ascii.eqb c BS then
        match s' with
        | String "u" (String h1 (String h2 (String h3 (String h4 s'')))) =>
            match unicode_escape h1 h2 h3 h4, scan_string s'' with
            | Some x, Some (t, r) => Some (String x t, r)
            | _, _ => None
            end
        | String e s'' =>
            match simple_escape e, scan_string s'' with
            | Some x, Some (t, r) => Some (String x t, r)
            | _, _ => None
            end
        | EmptyString => None
        end
      else if nat_of_ascii c <? 32 then None
      else match scan_string s' with
           | Some (t, r) => Some (String c t, r)
           | None => None
           end
  end.

Definition parse_string (s : string) : option (string * string) :=
  match s with
  | String c s' => if Ascii.eqb c DQ then scan_string s' else None
  | EmptyString => None
  end.

(** The members of an object from its first key on; a repeated key
    keeps its first place and takes the last value, as in a [dict]. *)
Fixpoint parse_members (fuel : nat) (s : string)
    (acc : list (string * string)) : option (list (string * string)) :=
  match fuel with
  | O => None
  | S n =>
      match parse_string (skip_ws s) with
      | None => None
      | Some (k, s1) =>
          match skip_ws s1 with
          | String ":" s2 =>
              match parse_string (skip_ws s2) with
              | None => None
              | Some (v, s3) =>
                  match skip_ws s3 with
                  | String "," s4 => parse_members n s4 (PyDict.set k v acc)
                  | String "}" s4 =>
                      match skip_ws s4 with
                      | EmptyString => Some (PyDict.set k v acc)
                      | _ => None
                      end
                  | _ => None
                  end
              end
          | _ => None
          end
      end
  end.

(** [json.loads] on a store document. *)
Definition loads (s : string) : option (list (string * string)) :=
  match skip_ws s with
  | String "{" s1 =>
      match skip_ws s1 with
      | String "}" s2 =>
          match skip_ws s2 with
          | EmptyString => Some []
          | _ => None
          end
      | _ => parse_members (String.length s) s1 []
      end
  | _ => None
  end.

End Json.

(** ** The agent *)

Record Report : Type := mkReport {
  status : string;
  message : string
}.

Definition rbind {A B} (r : result A) (k : A → result B) : result B :=
  match r with
  | Ret a => k a
  | Raise e => Raise e
  end.

Module Py.

(** [o.get(k, default)]; only a dict has [get]. *)
Definition get (o : json) (k : string) (default : json) : result json :=
  match o with
  | JDict d =>
      Ret (match PyDict.get k d with Some v => v | None => default end)
  | _ => Raise AttributeError
  end.

(** [o == text] *)
Definition eq_str (o : json) (text : string) : bool :=
  match o with
  | JStr s => String.eqb s text
  | _ => false
  end.

Fixpoint chars (s : string) : list json :=
  match s with
  | EmptyString => []
  | String c s' => JStr (String c EmptyString) :: chars s'
  end.

(** The items a [for] loop over [o] visits. *)
Definition iter (o : json) : result (list json) :=
  match o with
  | JList l => Ret l
  | JDict d => Ret (map (λ kv, JStr (fst kv)) d)
  | JStr s => Ret (chars s)
  | _ => Raise TypeError
  end.

(** [l.insert(i, x)] for [0 <= i]. *)
Definition insert_at {A} (i : nat) (x : A) (l : list A) : list A :=
  take i l ++ x :: drop i l.

(** [0 <= line_no < n], and the index when it holds: a float passes
    the comparison but is no list index, other values do not compare
    with an [int]. *)
Definition index_below (line_no : json) (n : nat) : result (option nat) :=
  match line_no with
  | JInt z =>
      Ret (if (0 <=? z)%Z && (z <? Z.of_nat n)%Z then Some (Z.to_nat z) else None)
  | JBool b =>
      let z := if b then 1 else 0 in
      Ret (if z <? n then Some z else None)
  | JFloat num den =>
      if (0 <? den)%Z && (0 <=? num)%Z && (num <? Z.of_nat n * den)%Z
      then Raise TypeError else Ret None
  | _ => Raise TypeError
  end.

Definition digit_value (c : ascii) : nat := nat_of_ascii c - 48.

(** [int(s)] for a text of decimal digits. *)
Definition int_of_digits (s : string) : nat :=
  (fix go (acc : nat) (s : string) : nat :=
     match s with
     | EmptyString => acc
     | String c s' => go (10 * acc + digit_value c) s'
     end) 0 s.

End Py.

(** [re.sub(p, repl, s)] for a pattern that matches no empty text, [expand]
    being the compiled replacement. *)
Fixpoint re_sub_from (fuel : nat) (p : Re.pattern)
    (expand : list string → string) (s : string) : string :=
  match fuel with
  | O => s
  | S n =>
      match Re.search p s with
      | Some (pre, gs, r) => pre +:+ expand gs +:+ re_sub_from n p expand r
      | None => s
      end
  end.

Definition re_sub (p : Re.pattern) (expand : list string → string)
    (s : string) : string :=
  re_sub_from (S (String.length s)) p expand s.

Definition LEARNING_DB_PATH : string := "learning_db.json".

(** [r"'(.+?)' object has no attribute '(.+?)'"] *)
Definition missing_attribute_pattern : Re.pattern :=
  [Re.Lit "'"; Re.Lazy1 Re.dot; Re.Lit "' object has no attribute '";
   Re.Lazy1 Re.dot; Re.Lit "'"].

(** [r"AssertionError: (.+?) != (.+)"] *)
Definition assertion_error_pattern : Re.pattern :=
  [Re.Lit "AssertionError: "; Re.Lazy1 Re.dot; Re.Lit " != ";
   Re.Greedy1 Re.dot].

(** [r"assert (.+?) == (.+)"] *)
Definition assert_line_pattern : Re.pattern :=
  [Re.Lit "assert "; Re.Lazy1 Re.dot; Re.Lit " == "; Re.Greedy1 Re.dot].

(** [r"No module named '(.+?)'"] *)
Definition no_module_pattern : Re.pattern :=
  [Re.Lit "No module named '"; Re.Lazy1 Re.dot; Re.Lit "'"].

(** [r"(.+?)\(\) missing (\d+) required positional argument"] *)
Definition type_error_pattern : Re.pattern :=
  [Re.Lazy1 Re.dot; Re.Lit "() missing "; Re.Greedy1 Re.digit;
   Re.Lit " required positional argument"].

(** The stub [f"    def {missing_attr}(self):\n        pass\n\n"]. *)
Definition stub_method (missing_attr : string) : string :=
  "    def " +:+ missing_attr +:+ "(self):" +:+ String LF
    ("        pass" +:+ String LF (String LF EmptyString)).

(** The loop of [_quick_fix_missing_attribute]: the stub goes after the
    first line that holds the marker, and the loop stops there. *)
Fixpoint insert_stub (marker stub : string) (lines : list string) : list string :=
  match lines with
  | [] => []
  | line :: rest =>
      if str_in marker line then line :: stub :: rest
      else line :: insert_stub marker stub rest
  end.

(** The test of [_quick_fix_assertion_mismatch] on a line. *)
Definition is_assert_line (line : string) : bool :=
  str_in "assert " line && str_in "==" line.

(** Its loop: the first such line is rewritten, [None] when there is none. *)
Fixpoint rewrite_first_assert (template : result (list string → string))
    (lines : list string) : result (option (list string)) :=
  match lines with
  | [] => Ret None
  | line :: rest =>
      if is_assert_line line then
        rbind template (λ expand,
          Ret (Some (re_sub assert_line_pattern expand line :: rest)))
      else
        rbind (rewrite_first_assert template rest) (λ r,
          Ret (option_map (cons line) r))
  end.

(** The test of [_quick_fix_import_error] on a line. *)
Definition mentions_import (missing_module line : string) : bool :=
  str_in "import" line && str_in missing_module line.

Definition already_imported (missing_module : string) (lines : list string) : bool :=
  existsb (mentions_import missing_module) lines.

(** [", ".join(["None"] * missing_count)] *)
Definition placeholders (missing_count : nat) : string :=
  join ", " (repeat "None" missing_count).

(** [_search_learned_fix]: the first stored key that occurs in the error
    text gives the fix. *)
Fixpoint _search_learned_fix (db : list (string * string)) (error_msg : string)
    : option string :=
  match db with
  | [] => None
  | (known_err, fix_str) :: db' =>
      if str_in known_err error_msg then Some fix_str
      else _search_learned_fix db' error_msg
  end.

Fixpoint drop_leading_tests (parts : list string) : list string :=
  match parts with
  | p :: ps => if String.eqb p "tests" then drop_leading_tests ps else parts
  | [] => []
  end.

Section Agent.
Context `{Collaborators}.

(** *** Files *)

Definition resolve (path : string) : string := Path.abspath cwd path.

Definition fs_read (fs : FS) (path : string) : option string :=
  fs !! resolve path.
Definition fs_write (fs : FS) (path content : string) : FS :=
  <[resolve path := content]> fs.
Definition fs_exists (fs : FS) (path : string) : bool :=
  match fs_read fs path with Some _ => true | None => false end.

(** [os.path.exists(path)] *)
Definition path_exists (path : string) : M bool :=
  λ w, (w, Ret (fs_exists (w_fs w) path)).

(** [open(path, "r").read()] *)
Definition read_text (path : string) : M string :=
  λ w, match fs_read (w_fs w) path with
       | Some c => (w, Ret c)
       | None => (w, Raise FileNotFoundError)
       end.

(** [open(path, "w")] and what is written to it. *)
Definition write_text (path content : string) : M unit :=
  λ w, (with_fs w (fs_write (w_fs w) path content), Ret tt).

(** [open(path, "a")] and what is written to it. *)
Definition append_text (path content : string) : M unit :=
  λ w, let old := default EmptyString (fs_read (w_fs w) path) in
       (with_fs w (fs_write (w_fs w) path (old +:+ content)), Ret tt).

(** [shutil.copy(src, dst)] *)
Definition copy_file (src dst : string) : M unit :=
  let* c := read_text src in write_text dst c.

Definition test_path (file_name : string) : string :=
  Path.join2 "tests" file_name.

(** *** The pattern matchers *)

Definition _quick_fix_missing_attribute (file_name error_msg : string) : M bool :=
  match Re.search missing_attribute_pattern error_msg with
  | Some (_, [class_name; missing_attr], _) =>
      let path := test_path file_name in
      let* found := path_exists path in
      if negb found then ret false
      else
        try_except
          (let* text := read_text path in
           let lines :=
             insert_stub ("class " +:+ class_name) (stub_method missing_attr)
               (readlines text) in
           write_text path (writelines lines) ;;
           ret true)
          (λ _, ret false)
  | _ => ret false
  end.

Definition _quick_fix_assertion_mismatch (file_name error_msg : string) : M bool :=
  match Re.search assertion_error_pattern error_msg with
  | Some (_, [expected; actual], _) =>
      let path := test_path file_name in
      let* found := path_exists path in
      if negb found then ret false
      else
        try_except
          (let* text := read_text path in
           let template :=
             re_template ("assert " +:+ actual +:+ " == " +:+ actual
                            +:+ String LF EmptyString) in
           let* changed := lift (rewrite_first_assert template (readlines text)) in
           match changed with
           | Some lines => write_text path (writelines lines) ;; ret true
           | None => ret false
           end)
          (λ _, ret false)
  | _ => ret false
  end.

Definition _quick_fix_import_error (file_name error_msg : string) : M bool :=
  match Re.search no_module_pattern error_msg with
  | Some (_, [missing_module], _) =>
      let path := test_path file_name in
      let* found := path_exists path in
      if negb found then ret false
      else
        try_except
          (let* text := read_text path in
           let lines := readlines text in
           if already_imported missing_module lines then ret false
           else
             write_text path
               (writelines (("import " +:+ missing_module +:+ String LF EmptyString)
                              :: lines)) ;;
             ret true)
          (λ _, ret false)
  | _ => ret false
  end.

(** The loop of [_quick_fix_type_error]: every line the call-site
    pattern finds is rewritten; the flag tells whether one was. *)
Fixpoint add_placeholders (function_name repl : string) (lines : list string)
    : result (list string * bool) :=
  match lines with
  | [] => Ret ([], false)
  | line :: rest =>
      rbind (re_search_call function_name line) (λ hit,
        if hit then
          rbind (re_sub_call function_name repl line) (λ line',
            rbind (add_placeholders function_name repl rest) (λ r,
              Ret (line' :: fst r, true)))
        else
          rbind (add_placeholders function_name repl rest) (λ r,
            Ret (line :: fst r, snd r)))
  end.

Definition _quick_fix_type_error (file_name error_msg : string) : M bool :=
  match Re.search type_error_pattern error_msg with
  | Some (_, [function_name; missing_count_str], _) =>
      let missing_count := Py.int_of_digits missing_count_str in
      let path := test_path file_name in
      let* found := path_exists path in
      if negb found then ret false
      else
        try_except
          (let* text := read_text path in
           let repl :=
             function_name +:+ "(" +:+ String Json.BS "1, "
               +:+ placeholders missing_count +:+ ")" in
           let* r := lift (add_placeholders function_name repl (readlines text)) in
           if snd r then write_text path (writelines (fst r)) ;; ret true
           else ret false)
          (λ _, ret false)
  | _ => ret false
  end.

Definition _quick_fix_indentation (file_name : string) : M bool :=
  let path := test_path file_name in
  let* found := path_exists path in
  if negb found then ret false
  else
    try_except
      (let* text := read_text path in
       let converted_lines := map (replace_char TAB "    ") (readlines text) in
       write_text path (writelines converted_lines) ;;
       ret true)
      (λ _, ret false).

Definition _apply_known_pattern (failure : FailureRecord) : M bool :=
  let error_msg := f_error failure in
  let file_name := f_file failure in
  if str_in "AttributeError" error_msg then
    _quick_fix_missing_attribute file_name error_msg
  else if str_in "AssertionError" error_msg then
    _quick_fix_assertion_mismatch file_name error_msg
  else if str_in "ImportError" error_msg then
    _quick_fix_import_error file_name error_msg
  else if str_in "TypeError" error_msg && str_in "missing" error_msg
          && str_in "required positional argument" error_msg then
    _quick_fix_type_error file_name error_msg
  else if str_in "IndentationError" error_msg then
    _quick_fix_indentation file_name
  else ret false.

(** *** The learning store *)

Definition _save_learning_db : M unit :=
  try_except
    (λ w, write_text LEARNING_DB_PATH (Json.dumps (w_db w)) w)
    (λ _, ret tt).

Definition _store_learned_fix (error_msg fix_str : string) : M unit :=
  (λ w, (with_db w (PyDict.set error_msg fix_str (w_db w)), Ret tt)) ;;
  _save_learning_db.

(** [_load_learning_db]: the mapping the store file holds, empty when
    the file is missing or cannot be parsed.  The store is a mapping from
    text to text; a document that is JSON of another shape, which the code
    hands on as it is, is outside the model and loads as the empty store
    here. *)
Definition _load_learning_db (fs : FS) : list (string * string) :=
  match fs_read fs LEARNING_DB_PATH with
  | None => []
  | Some text =>
      match Json.loads text with
      | Some data => data
      | None => []
      end
  end.

(** [__init__]: the agent starts from the store on disk. *)
Definition init_world (fs : FS) : World :=
  mkWorld fs (_load_learning_db fs) [].

(** *** The learned tier *)

(** The path the learned tier works on; joining no part at all raises. *)
Definition learned_fix_path (file : string) : result string :=
  let relative_path := Path.normpath file in
  let relative_path' :=
    if str_in "tests" relative_path then
      Path.join_all (drop_leading_tests (split_char "/" relative_path))
    else Some relative_path in
  match relative_path' with
  | Some r => Ret (Path.abspath cwd (Path.join2 "tests" r))
  | None => Raise TypeError
  end.

(** The loop that inserts the snippets of a [snippet_inject] fix. *)
Fixpoint inject_snippets (items : list json) (file_lines : list string)
    : result (list string) :=
  match items with
  | [] => Ret file_lines
  | patch_line :: rest =>
      rbind (Py.get patch_line "line_no" JNull) (λ line_no,
      rbind (Py.get patch_line "insert_after" (JStr EmptyString)) (λ text,
        match text with
        | JStr s =>
            let snippet := strip s in
            rbind (Py.index_below line_no (length file_lines)) (λ i,
              match i with
              | Some n =>
                  inject_snippets rest
                    (Py.insert_at (n + 1) (snippet +:+ String LF EmptyString) file_lines)
              | None => inject_snippets rest file_lines
              end)
        | _ => Raise AttributeError
        end))
  end.

(** [parse_diff_suggestion] on a value taken from the fix; a value that
    is no text makes the parser raise. *)
Definition parse_diff_value (v : json) : result (option PatchSet) :=
  match v with
  | JStr s => parse_diff_suggestion s
  | _ => Raise TypeError
  end.

(** [if not patch_obj or len(patch_obj) == 0: return False], then the
    patch is applied to the one file. *)
Definition apply_patch_set (file_path : string) (patch_obj : option PatchSet)
    : M bool :=
  match patch_obj with
  | None => ret false
  | Some p =>
      if Nat.eqb (patch_len p) 0 then ret false
      else on_fs (apply_diff_patch [file_path] p) ;; ret true
  end.

(** The body of the [try] of [_apply_adaptive_learning_fix]. *)
Definition apply_learned_payload (file_path known_fix : string) : M bool :=
  let backup_path := file_path +:+ ".backup" in
  copy_file file_path backup_path ;;
  if startswith known_fix "{" && str_in "type" known_fix then
    let* fix_data := lift (json_loads known_fix) in
    let* type := lift (Py.get fix_data "type" JNull) in
    if Py.eq_str type "snippet_inject" then
      let* text := read_text file_path in
      let* target_lines := lift (Py.get fix_data "target_lines" (JList [])) in
      let* items := lift (Py.iter target_lines) in
      let* file_lines := lift (inject_snippets items (readlines text)) in
      write_text file_path (writelines file_lines) ;;
      ret true
    else if Py.eq_str type "unified_diff" then
      let* diff_text := lift (Py.get fix_data "diff_text" (JStr EmptyString)) in
      let* patch_obj := lift (parse_diff_value diff_text) in
      apply_patch_set file_path patch_obj
    else if Py.eq_str type "config_update" then
      let* key_to_replace := lift (Py.get fix_data "config_key" JNull) in
      let* new_value := lift (Py.get fix_data "new_value" JNull) in
      on_fs (update_config_key file_path key_to_replace new_value)
    else ret false
  else if str_in "diff --git" known_fix then
    let* patch_obj := lift (parse_diff_suggestion known_fix) in
    apply_patch_set file_path patch_obj
  else if str_in "def " known_fix || str_in "class " known_fix then
    append_text file_path (String LF known_fix +:+ String LF EmptyString) ;;
    ret true
  else ret false.

Definition _apply_adaptive_learning_fix (failure : FailureRecord) : M bool :=
  let error_msg := f_error failure in
  let* file_path := lift (learned_fix_path (f_file failure)) in
  let* found := path_exists file_path in
  if negb found then ret false
  else
    λ w,
      match _search_learned_fix (w_db w) error_msg with
      | None => (w, Ret false)
      | Some known_fix =>
          if String.eqb known_fix EmptyString then (w, Ret false)
          else
            try_except
              (apply_learned_payload file_path known_fix)
              (λ _, copy_file (file_path +:+ ".backup") file_path ;; ret false)
              w
      end.

(** *** The AI tier *)

Definition _apply_ollama_deepseek_fix (failure : FailureRecord) : M bool :=
  let file_path := test_path (f_file failure) in
  let* found := path_exists file_path in
  if negb found then ret false
  else
    try_except
      (let* file_content := read_text file_path in
       let* chunks := lift (deepseek_chunk_code file_content) in
       log_event (EvLLM chunks (f_error failure)) ;;
       let* suggestion :=
         lift (run_deepseek_ollama_analysis chunks (f_error failure)) in
       let* patch_obj := lift (parse_diff_suggestion suggestion) in
       match patch_obj with
       | None => raise TypeError       (* [len(None)] in the debug line *)
       | Some _ => apply_patch_set file_path patch_obj
       end)
      (λ _, ret false).

(** *** Dispatch *)

Definition apply_fix (failure : FailureRecord) : M bool :=
  let* used_known_fix := _apply_known_pattern failure in
  if used_known_fix then ret true
  else
    let* learned_fix_used := _apply_adaptive_learning_fix failure in
    if learned_fix_used then ret true
    else
      let* success := _apply_ollama_deepseek_fix failure in
      (if success then
         _store_learned_fix (f_error failure) "LLM-based patch (not real code)"
       else ret tt) ;;
      ret success.

(** *** The retry loop *)

Definition run_tests : M string :=
  λ w, (emit w EvTestRun, Ret (run_pytest (w_fs w))).

Definition rollback_changes (files_modified : list string) : M unit :=
  match files_modified with
  | [] => ret tt
  | _ =>
      log_event (EvRollback files_modified) ;;
      on_fs (rollback_changes_vcs files_modified)
  end.

(** [push_to_github]: the three git commands, whose failure is logged
    and goes no further. *)
Definition push_to_github (commit_message : string) : M unit :=
  log_event (EvPush commit_message).

Definition in_list (x : string) (l : list string) : bool :=
  existsb (String.eqb x) l.

(** The [for failure in failures] loop of one attempt: the list of
    modified files when the loop runs to its end, the report when it
    returns. *)
Fixpoint fix_failures (failures : list FailureRecord)
    (modified_files : list string) : M (list string + Report) :=
  match failures with
  | [] => ret (inl modified_files)
  | failure :: rest =>
      let file_name := f_file failure in
      let* fix_ok := apply_fix failure in
      if fix_ok && negb (in_list file_name modified_files) then
        fix_failures rest (modified_files ++ [file_name])
      else
        rollback_changes modified_files ;;
        ret (inr (mkReport "error"
                    ("Could not fix " +:+ file_name +:+ " automatically.")))
  end.

(** The [for attempt in range(1, max_retries + 1)] loop. *)
Fixpoint retry_loop (attempts : nat) (modified_files : list string) : M Report :=
  match attempts with
  | O => ret (mkReport "error" "Max retries reached. Unresolved issues remain.")
  | S attempts' =>
      let* test_output := run_tests in
      match parse_test_failures test_output with
      | [] =>
          push_to_github "All tests passed! Automated fix commits." ;;
          ret (mkReport "success" "All tests passed!")
      | failures =>
          let* r := fix_failures failures modified_files in
          match r with
          | inl modified_files' => retry_loop attempts' modified_files'
          | inr report => ret report
          end
      end
  end.

Definition retry_tests (max_retries : Z) : M Report :=
  retry_loop (Z.to_nat max_retries) [].

End Agent.

(** ** Reading the claims: definitions that follow the specification *)

(** The texts a pattern matches and the groups it captures then: a literal
    stands for itself, a group for one or more characters of its class. *)
Inductive Matches : Re.pattern → list string → string → Prop :=
| Matches_nil : Matches [] [] EmptyString
| Matches_lit l p gs m :
    Matches p gs m → Matches (Re.Lit l :: p) gs (l +:+ m)
| Matches_lazy cls p g gs m :
    g ≠ EmptyString → forall_char cls g = true →
    Matches p gs m → Matches (Re.Lazy1 cls :: p) (g :: gs) (g +:+ m)
| Matches_greedy cls p g gs m :
    g ≠ EmptyString → forall_char cls g = true →
    Matches p gs m → Matches (Re.Greedy1 cls :: p) (g :: gs) (g +:+ m).

(** A pattern none of whose parts can take a line feed. *)
Definition tok_one_line (t : Re.tok) : bool :=
  match t with
  | Re.Lit l => forall_char not_LF l
  | Re.Lazy1 cls | Re.Greedy1 cls => negb (cls LF)
  end.

(** The record the parser's pattern finds first in one line. *)
Definition failed_line (line : string) : option FailureRecord :=
  match Re.search failure_pattern line with
  | Some (_, gs, _) => record_of_groups gs
  | None => None
  end.

(** A line of the form [FAILED <file>::<test> - <reason>], each of the
    three parts present, after any text. *)
Definition well_formed_line (line : string) : Prop :=
  ∃ pre file test reason,
    file ≠ EmptyString ∧ test ≠ EmptyString ∧ reason ≠ EmptyString
    ∧ line = pre +:+ "FAILED " +:+ file +:+ "::" +:+ test +:+ " - " +:+ reason.

(** The groups the parser's pattern finds first in one line. *)
Definition line_groups (line : string) : option (list string) :=
  match Re.search failure_pattern line with
  | Some (_, gs, _) => Some gs
  | None => None
  end.

(** The text of a store document after its opening brace. *)
Fixpoint members_text (es : list (string * string)) : string :=
  match es with
  | [] => EmptyString
  | [e] => String LF (Json.encode_item e +:+ String LF "}")
  | e :: es' => String LF (Json.encode_item e +:+ String "," (members_text es'))
  end.

(** The five pattern matchers, by name. *)
Inductive matcher : Type :=
| MissingAttribute
| AssertionMismatch
| ImportModule
| TypeErrorArgs
| Indentation.

(** The priority table of section 4.2: the markers that select a class,
    in the order the classes are tried. *)
Definition pattern_classes : list (matcher * list string) :=
  [(MissingAttribute, ["AttributeError"]);
   (AssertionMismatch, ["AssertionError"]);
   (ImportModule, ["ImportError"]);
   (TypeErrorArgs, ["TypeError"; "missing"; "required positional argument"]);
   (Indentation, ["IndentationError"])].

(** The first class all of whose markers occur in the error text. *)
Definition classify (error_msg : string) : option matcher :=
  option_map fst
    (find (λ c, forallb (λ marker, str_in marker error_msg) (snd c))
       pattern_classes).

Section Readings.
Context `{Collaborators}.

Definition run_matcher (m : matcher) (file_name error_msg : string) : M bool :=
  match m with
  | MissingAttribute => _quick_fix_missing_attribute file_name error_msg
  | AssertionMismatch => _quick_fix_assertion_mismatch file_name error_msg
  | ImportModule => _quick_fix_import_error file_name error_msg
  | TypeErrorArgs => _quick_fix_type_error file_name error_msg
  | Indentation => _quick_fix_indentation file_name
  end.


(** Test runs recorded in the log. *)
Definition is_test_run (e : event) : bool :=
  match e with EvTestRun => true | _ => false end.
Definition test_runs (w : World) : nat :=
  length (filter (λ e, is_test_run e = true) (w_log w)).

(** A step that touches nothing but the files. *)
Definition fs_only {A} (m : M A) : Prop :=
  ∀ w, w_db (fst (m w)) = w_db w ∧ w_log (fst (m w)) = w_log w.

(** A step that ends without an exception. *)
Definition never_raises {A} (m : M A) : Prop :=
  ∀ w, ∃ w' a, m w = (w', Ret a).

(** A step that runs no test. *)
Definition no_test_run {A} (m : M A) : Prop :=
  ∀ w, test_runs (fst (m w)) = test_runs w.

(** Calls to the AI backend recorded in the log. *)
Definition is_llm_call (e : event) : bool :=
  match e with EvLLM _ _ => true | _ => false end.
Definition llm_calls (w : World) : nat :=
  length (filter (λ e, is_llm_call e = true) (w_log w)).
End Readings.

(** The three reports [retry_tests] can return. *)
Definition report_success : Report := mkReport "success" "All tests passed!".
Definition report_could_not_fix (file_name : string) : Report :=
  mkReport "error" ("Could not fix " +:+ file_name +:+ " automatically.").

(** ** A test bench: concrete collaborators for worked scenarios *)

Record Scenario : Type := mkScenario {
  sc_pytest : FS → string;       (* what the test runner prints *)
  sc_suggestion : string;        (* what the AI backend answers *)
  sc_apply_raises : bool         (* the patch stops half-way with an exception *)
}.

Definition bench_cwd : string := "/repo".

(** A patch is the text it writes; written half-way, the file holds
    ["<<partial>>"] when the exception leaves. *)
Definition bench_apply (raises : bool) (paths : list string)
    (patch : list string) (fs : FS) : FS * result unit :=
  let body := if raises then "<<partial>>" else writelines patch in
  (foldr (λ p acc, <[Path.abspath bench_cwd p := body]> acc) fs paths,
   if raises then Raise ExternalError else Ret tt).

Definition bench (sc : Scenario) : Collaborators := {|
  cwd := bench_cwd;
  run_pytest := sc_pytest sc;
  PatchSet := list string;
  patch_len := length;
  deepseek_chunk_code := λ code, Ret [code];
  run_deepseek_ollama_analysis := λ _ _, Ret (sc_suggestion sc);
  parse_diff_suggestion :=
    λ s, Ret (Some (if str_in "diff --git" s then [s] else []));
  apply_diff_patch := bench_apply (sc_apply_raises sc);
  rollback_changes_vcs := λ _ fs, (fs, Ret tt);
  update_config_key := λ _ _ _ fs, (fs, Ret false);
  json_loads := λ _, Raise JSONDecodeError;
  re_search_call := λ _ _, Ret false;
  re_sub_call := λ _ _ line, Ret line;
  re_template := λ repl, Ret (λ _, repl)
|}.

(** *** Worked scenarios *)

Definition t_py : string := "/repo/tests/t.py".

(** One failure no pattern class covers. *)
Definition boom : FailureRecord :=
  mkFailure "t.py" "test_a" "ValueError: boom".
Definition boom_line : string := "FAILED t.py::test_a - ValueError: boom".

(** The AI backend answers with a diff that applies. *)
Definition sc_ai_ok : Scenario :=
  mkScenario (λ _, boom_line) "diff --git a/t.py b/t.py" false.

(** The AI backend answers with a diff whose application stops half-way. *)
Definition sc_ai_breaks : Scenario :=
  mkScenario (λ _, boom_line) "diff --git a/t.py b/t.py" true.


Definition fs_one_file : FS := {[ t_py := "x = 1" ]}.

(** Two failing tests of the same file, both fixed by the indentation tier. *)
Definition tab_a : FailureRecord :=
  mkFailure "t.py" "test_a" "IndentationError: unexpected indent".
Definition tab_b : FailureRecord :=
  mkFailure "t.py" "test_b" "IndentationError: unexpected indent".
Definition two_tabs_output : string :=
  "FAILED t.py::test_a - IndentationError: unexpected indent" +:+ String LF
    "FAILED t.py::test_b - IndentationError: unexpected indent".
Definition sc_two_tabs : Scenario :=
  mkScenario (λ _, two_tabs_output) EmptyString false.
Definition fs_tabbed : FS := {[ t_py := String TAB "x = 1" ]}.

(** A suite that fails in [a.py] while that file holds a tab and in [b.py]
    afterwards: two attempts, each with one failure that is fixed. *)
Definition two_files_pytest (fs : FS) : string :=
  match fs !! "/repo/tests/a.py" with
  | Some text =>
      if str_in (String TAB EmptyString) text
      then "FAILED a.py::test_a - IndentationError: unexpected indent"
      else "FAILED b.py::test_b - IndentationError: unexpected indent"
  | None => EmptyString
  end.
Definition sc_two_files : Scenario :=
  mkScenario two_files_pytest EmptyString false.
Definition fs_two_files : FS :=
  {[ "/repo/tests/a.py" := String TAB "a = 1";
     "/repo/tests/b.py" := String TAB "b = 1" ]}.

(** ** The rest of the agent's entry points *)

Section Entry.
Context `{Collaborators}.

(** [automate_debugging]: the retry loop with its default of three
    attempts. *)
Definition automate_debugging : M Report := retry_tests 3.

End Entry.

(** A step that leaves a file as it is. *)
Definition keeps_path `{Collaborators} {A} (path : string) (m : M A) : Prop :=
  ∀ w, fs_read (w_fs (fst (m w))) path = fs_read (w_fs w) path.

(** A run of the test suite in which every test passes. *)
Definition sc_all_pass : Scenario :=
  mkScenario (λ _, "2 passed in 0.01s") EmptyString false.

(** The events of a cycle before it ends: test runs and calls to the AI
    backend. *)
Definition is_work_event (e : event) : bool :=
  match e with
  | EvTestRun | EvLLM _ _ => true
  | _ => false
  end.

(** How the log of a cycle may end: with nothing more, with one rollback of
    a list of files that is not empty, or with one push. *)
Definition cycle_end (tail : list event) : Prop :=
  tail = []
  ∨ (∃ files, files ≠ [] ∧ tail = [EvRollback files])
  ∨ (∃ message, tail = [EvPush message]).

(** *** More worked scenarios *)

(** The two failures of [fs_two_files], one per file. *)
Definition two_file_failures : list FailureRecord :=
  [ mkFailure "a.py" "test_a" "IndentationError: unexpected indent";
    mkFailure "b.py" "test_b" "IndentationError: unexpected indent" ].

(** A class without the method its test calls. *)
Definition calc_text : string :=
  "class Calc:" +:+ String LF ("    pass" +:+ String LF EmptyString).
Definition fs_calc : FS := {[ t_py := calc_text ]}.

(** A store that holds a function definition for [boom], and one that
    holds a diff. *)
Definition db_helper : list (string * string) :=
  [("boom", "def helper(): pass")].
Definition db_diff : list (string * string) :=
  [("boom", "diff --git a/t.py b/t.py")].

(** A failure whose file name is [tests] itself. *)
Definition tests_only : FailureRecord :=
  mkFailure "tests" "test_a" "ValueError: boom".
Definition sc_tests_only : Scenario :=
  mkScenario (λ _, "FAILED tests::test_a - ValueError: boom") EmptyString false.

(** One item of a [snippet_inject] fix. *)
Definition one_snippet : list json :=
  [JDict [("line_no", JInt 0); ("insert_after", JStr "  y = 2  ")]].

(** A test whose assertion fails. *)
Definition assert_text : string :=
  "def test_a():" +:+ String LF ("    assert f(1) == 3" +:+ String LF EmptyString).
Definition fs_assert : FS := {[ t_py := assert_text ]}.

(** ** Reading the claims on the matchers *)

(** [needle] occurs in [hay]: the text splits around it. *)
Definition contains (needle hay : string) : Prop :=
  ∃ a b, hay = a +:+ needle +:+ b.

(** A character of a Python name. *)
Definition is_name_char (c : ascii) : bool :=
  let n := nat_of_ascii c in
  ((48 <=? n) && (n <=? 57)) || ((65 <=? n) && (n <=? 90))
  || ((97 <=? n) && (n <=? 122)) || (n =? 95).

(** The name ends where [rest] begins. *)
Definition name_ends (rest : string) : bool :=
  match rest with
  | EmptyString => true
  | String c _ => negb (is_name_char c)
  end.

(** Following the specification, an import of [<mod>]: a line that, after
    its indentation, reads [import <mod>] or [from <mod>], the name of the
    module ending there. *)
Definition is_import_of (module line : string) : bool :=
  let statement := lstrip line in
  match strip_prefix ("import " +:+ module) statement with
  | Some rest => name_ends rest
  | None =>
      match strip_prefix ("from " +:+ module) statement with
      | Some rest => name_ends rest
      | None => false
      end
  end.

Section NoFurtherMatch.
Context `{Collaborators}.


End NoFurtherMatch.

(** A file that imports another module whose name starts with [foo], and
    one whose comment holds [import] and [foo]. *)
Definition foobar_text : string :=
  "import foobar" +:+ String LF ("x = 1" +:+ String LF EmptyString).
Definition fs_foobar : FS := {[ t_py := foobar_text ]}.
Definition important_text : string :=
  "# important: foo" +:+ String LF EmptyString.
Definition fs_important : FS := {[ t_py := important_text ]}.


(** * Facts about the string primitives *)

Module PyStrFacts.

Lemma sapp_nil_r (s : string) : s +:+ EmptyString = s.
Proof. induction s as [|c s IH]; simpl; [reflexivity | now rewrite IH]. Qed.

Lemma sapp_assoc (a b c : string) : (a +:+ b) +:+ c = a +:+ (b +:+ c).
Proof. induction a as [|x a IH]; simpl; [reflexivity | now rewrite IH]. Qed.

Lemma sapp_length (a b : string) :
  String.length (a +:+ b) = String.length a + String.length b.
Proof. induction a as [|x a IH]; simpl; [reflexivity | now rewrite IH]. Qed.

Lemma strip_prefix_app (p s : string) : strip_prefix p (p +:+ s) = Some s.
Proof.
  induction p as [|a p IH]; simpl; [reflexivity |].
  now rewrite Ascii.eqb_refl.
Qed.

Lemma strip_prefix_inv (p s r : string) :
  strip_prefix p s = Some r → s = p +:+ r.
Proof.
  revert s; induction p as [|a p IH]; intros s; simpl.
  - now intros [= ->].
  - destruct s as [|b s]; [discriminate |].
    destruct (Ascii.eqb_spec a b) as [-> | _]; [| discriminate].
    intros Hs. now rewrite (IH _ Hs).
Qed.

Lemma forall_char_app (f : ascii → bool) (a b : string) :
  forall_char f (a +:+ b) = forall_char f a && forall_char f b.
Proof.
  induction a as [|c a IH]; simpl; [reflexivity |].
  now rewrite IH, andb_assoc.
Qed.

(** A literal free of line feeds is no prefix of a text that meets a line
    feed first. *)
Lemma strip_prefix_line (l a b : string) :
  forall_char not_LF l = true →
  strip_prefix l (a +:+ String LF b)
  = option_map (λ r, r +:+ String LF b) (strip_prefix l a).
Proof.
  revert a; induction l as [|x l IH]; intros a Hl; simpl; [reflexivity |].
  simpl in Hl. apply andb_prop in Hl as [Hx Hl].
  destruct a as [|y a]; simpl.
  - unfold not_LF in Hx. destruct (Ascii.eqb x LF); [discriminate | reflexivity].
  - destruct (Ascii.eqb x y); [now apply IH | reflexivity].
Qed.

Lemma writelines_readlines (s : string) : writelines (readlines s) = s.
Proof.
  induction s as [|c s IH]; simpl; [reflexivity |].
  destruct (Ascii.eqb c LF); simpl; [now rewrite IH |].
  destruct (readlines s) as [|l ls]; simpl in *; now rewrite <- IH.
Qed.

Lemma split_char_line (a b : string) :
  forall_char not_LF a = true →
  split_char LF (a +:+ String LF b) = a :: split_char LF b.
Proof.
  induction a as [|c a IH]; simpl; intros Ha.
  - reflexivity.
  - apply andb_prop in Ha as [Hc Ha]. unfold not_LF in Hc.
    destruct (Ascii.eqb c LF); [discriminate |].
    now rewrite (IH Ha).
Qed.

Lemma split_char_single (a : string) :
  forall_char not_LF a = true → split_char LF a = [a].
Proof.
  induction a as [|c a IH]; simpl; intros Ha; [reflexivity |].
  apply andb_prop in Ha as [Hc Ha]. unfold not_LF in Hc.
  destruct (Ascii.eqb c LF); [discriminate |].
  now rewrite (IH Ha).
Qed.

(** Every text is its lines joined by line feeds, and no line holds one. *)
Lemma split_char_join (s : string) :
  join (String LF EmptyString) (split_char LF s) = s
  ∧ Forall (λ l, forall_char not_LF l = true) (split_char LF s)
  ∧ split_char LF s ≠ [].
Proof.
  induction s as [|c s (IHj & IHf & IHn)]; simpl.
  - repeat split; [repeat constructor | discriminate].
  - destruct (Ascii.eqb_spec c LF) as [-> | Hc].
    + repeat split; [| constructor; [reflexivity | assumption] | discriminate].
      destruct (split_char LF s) as [|l ls]; [congruence |].
      simpl in *. now rewrite IHj.
    + destruct (split_char LF s) as [|l ls]; [congruence |].
      repeat split; [| | discriminate].
      * destruct ls; simpl in *; now rewrite <- IHj.
      * inversion IHf; subst. constructor; [| assumption].
        simpl. unfold not_LF at 1.
        destruct (Ascii.eqb_spec c LF); [contradiction | assumption].
Qed.

Lemma readlines_line (l s : string) :
  forall_char not_LF l = true →
  readlines (l +:+ String LF s) = (l +:+ String LF EmptyString) :: readlines s.
Proof.
  induction l as [|c l IH]; intros Hl; simpl.
  - reflexivity.
  - simpl in Hl. apply andb_prop in Hl as [Hc Hl]. unfold not_LF in Hc.
    destruct (Ascii.eqb c LF); [discriminate |].
    now rewrite (IH Hl).
Qed.

Lemma str_in_here (x b : string) : str_in x (x +:+ b) = true.
Proof.
  assert (Hs : startswith (x +:+ b) x = true)
    by (unfold startswith; now rewrite strip_prefix_app).
  destruct (x +:+ b); simpl; now rewrite Hs.
Qed.

Lemma str_in_app_mid (x a b : string) : str_in x (a +:+ x +:+ b) = true.
Proof.
  induction a as [|c a IH]; [exact (str_in_here x b) |].
  cbn [String.append str_in]. rewrite IH. apply orb_true_r.
Qed.

(** A needle that occurs nowhere is at no position. *)
Lemma str_in_false_suffix (x a b : string) :
  str_in x (a +:+ b) = false → strip_prefix x b = None.
Proof.
  induction a as [|c a IH]; intros Hin.
  - destruct b; simpl in Hin; apply orb_false_elim in Hin as [Hs _];
      unfold startswith in Hs; destruct (strip_prefix x _); congruence.
  - cbn [String.append str_in] in Hin.
    apply orb_false_elim in Hin as [_ Hin]. now apply IH.
Qed.

Lemma strip_prefix_none_app (x u t : string) :
  strip_prefix x u = None → String.length x ≤ String.length u →
  strip_prefix x (u +:+ t) = None.
Proof.
  revert u; induction x as [|a x IH]; intros u; simpl; [discriminate |].
  destruct u as [|b u]; simpl; [lia |].
  destruct (Ascii.eqb a b); [| reflexivity].
  intros Hn Hlen. apply IH; [assumption | lia].
Qed.


Lemma replace_char_app (old : ascii) (new a b : string) :
  replace_char old new (a +:+ b) = replace_char old new a +:+ replace_char old new b.
Proof.
  induction a as [|c a IH]; [reflexivity |].
  cbn [String.append replace_char].
  destruct (Ascii.eqb c old); rewrite IH; [now rewrite sapp_assoc | reflexivity].
Qed.

(** Replacing line by line is replacing in the whole text. *)
Lemma replace_char_lines (old : ascii) (new s : string) :
  writelines (map (replace_char old new) (readlines s)) = replace_char old new s.
Proof.
  rewrite <- (writelines_readlines s) at 2.
  induction (readlines s) as [|l ls IH]; [reflexivity |].
  cbn [map writelines]. now rewrite replace_char_app, IH.
Qed.


End PyStrFacts.
Import PyStrFacts.

(** * Facts about the matcher *)

Module ReFacts.
Import Re.

(** A pattern that takes no line feed matches inside the first line as
    it does on that line alone. *)
Lemma match_here_line (p : pattern) (a b : string) :
  forallb tok_one_line p = true →
  match_here p (a +:+ String LF b)
  = option_map (λ x, (fst x, snd x +:+ String LF b)) (match_here p a).
Proof.
  revert a; induction p as [|t p IH]; intros a Hp; [reflexivity |].
  simpl in Hp. apply andb_prop in Hp as [Ht Hp].
  destruct t as [l | cls | cls]; simpl in Ht |- *.
  - rewrite (strip_prefix_line l a b Ht).
    destruct (strip_prefix l a) as [a' |]; simpl; [now apply IH | reflexivity].
  - induction a as [|c a IHa]; simpl.
    + apply negb_true_iff in Ht. now rewrite Ht.
    + destruct (cls c); [| reflexivity].
      rewrite (IH a Hp).
      destruct (match_here p a) as [[gs r] |]; simpl; [reflexivity |].
      rewrite IHa.
      match goal with |- context [option_map _ ?m] => destruct m as [[[|g gs] r] |] end;
        reflexivity.
  - induction a as [|c a IHa]; simpl.
    + apply negb_true_iff in Ht. now rewrite Ht.
    + destruct (cls c); [| reflexivity].
      rewrite IHa.
      match goal with |- context [option_map _ ?m] => destruct m as [[[|g gs] r] |] end;
        simpl; try reflexivity;
        rewrite (IH a Hp); destruct (match_here p a) as [[gs' r'] |]; reflexivity.
Qed.

(** What [match_here] returns is a match, and the text splits into it and
    the rest. *)
Lemma match_here_sound (p : pattern) (s : string) gs r :
  match_here p s = Some (gs, r) → ∃ m, Matches p gs m ∧ s = m +:+ r.
Proof.
  revert s gs r; induction p as [|t p IH]; intros s gs r.
  - simpl. intros [= <- <-]. exists EmptyString. split; [constructor | reflexivity].
  - destruct t as [l | cls | cls]; simpl.
    + destruct (strip_prefix l s) as [s' |] eqn:Hs; [| discriminate].
      intros Hm. apply IH in Hm as (m & Hm & ->).
      apply strip_prefix_inv in Hs as ->.
      exists (l +:+ m). split; [now constructor | now rewrite sapp_assoc].
    + revert gs r. induction s as [|c s IHs]; intros gs r; simpl; [discriminate |].
      destruct (cls c) eqn:Hc; [| discriminate].
      destruct (match_here p s) as [[gs' r'] |] eqn:Hp.
      * intros [= <- <-]. apply IH in Hp as (m & Hm & ->).
        exists (String c EmptyString +:+ m). split; [| reflexivity].
        constructor; [discriminate | simpl; now rewrite Hc | assumption].
      * match goal with |- context [match ?m with _ => _ end] =>
          destruct m as [[[|g gs'] r'] |] eqn:Hl end; try discriminate.
        intros [= <- <-].
        destruct (IHs _ _ eq_refl) as (m & Hm & ->).
        inversion Hm; subst.
        exists (String c g +:+ m0). split; [| reflexivity].
        constructor; [discriminate | simpl; now rewrite Hc | assumption].
    + revert gs r. induction s as [|c s IHs]; intros gs r; simpl; [discriminate |].
      destruct (cls c) eqn:Hc; [| discriminate].
      match goal with |- context [match ?m with _ => _ end] =>
        destruct m as [[[|g gs'] r'] |] eqn:Hl end.
      * destruct (IHs _ _ eq_refl) as (m & Hm & _). inversion Hm.
      * intros [= <- <-].
        destruct (IHs _ _ eq_refl) as (m & Hm & ->).
        inversion Hm; subst.
        exists (String c g +:+ m0). split; [| reflexivity].
        constructor; [discriminate | simpl; now rewrite Hc | assumption].
      * destruct (match_here p s) as [[gs' r'] |] eqn:Hp; [| discriminate].
        intros [= <- <-]. apply IH in Hp as (m & Hm & ->).
        exists (String c EmptyString +:+ m). split; [| reflexivity].
        constructor; [discriminate | simpl; now rewrite Hc | assumption].
Qed.

(** Wherever a text is a match followed by anything, [match_here] finds
    a match (the same or one it tries earlier). *)
Lemma match_here_complete (p : pattern) gs m :
  Matches p gs m → ∀ r, is_Some (match_here p (m +:+ r)).
Proof.
  induction 1 as [| l p gs m _ IH | cls p g gs m Hg Hcls _ IH
                 | cls p g gs m Hg Hcls _ IH]; intros r.
  - simpl. eauto.
  - rewrite sapp_assoc. simpl. rewrite strip_prefix_app. apply IH.
  - rewrite sapp_assoc. simpl.
    induction g as [|c g IHg]; [congruence |].
    simpl in Hcls |- *. apply andb_prop in Hcls as [Hc Hcls]. rewrite Hc.
    destruct (match_here p (g +:+ m +:+ r)) as [[gs' r'] |] eqn:Hp; [eauto |].
    destruct g as [|c' g].
    + simpl in Hp. destruct (IH r) as [x Hx]. congruence.
    + destruct (IHg ltac:(discriminate) Hcls) as [[gs1 r1] H1].
      rewrite H1.
      change (match_here (Lazy1 cls :: p) (String c' g +:+ m +:+ r) = Some (gs1, r1)) in H1.
      apply match_here_sound in H1 as (m1 & Hm1 & _).
      inversion Hm1; subst. eauto.
  - rewrite sapp_assoc. simpl.
    induction g as [|c g IHg]; [congruence |].
    simpl in Hcls |- *. apply andb_prop in Hcls as [Hc Hcls]. rewrite Hc.
    destruct g as [|c' g].
    + simpl (EmptyString +:+ _).
      match goal with |- context [match ?x with _ => _ end] =>
        destruct x as [[[|g1 gs1] r1] |] end; eauto;
        destruct (IH r) as [[gs2 r2] H2]; rewrite H2; eauto.
    + destruct (IHg ltac:(discriminate) Hcls) as [[gs1 r1] H1].
      rewrite H1.
      change (match_here (Greedy1 cls :: p) (String c' g +:+ m +:+ r) = Some (gs1, r1)) in H1.
      apply match_here_sound in H1 as (m1 & Hm1 & _).
      inversion Hm1; subst. eauto.
Qed.

Lemma search_sound (p : pattern) (s : string) pre gs r :
  search p s = Some (pre, gs, r) →
  ∃ m, Matches p gs m ∧ s = pre +:+ m +:+ r.
Proof.
  revert pre gs r; induction s as [|c s IH]; intros pre gs r; simpl.
  - destruct (match_here p EmptyString) as [[gs' r'] |] eqn:Hm; [| discriminate].
    intros [= <- <- <-]. now apply match_here_sound in Hm.
  - destruct (match_here p (String c s)) as [[gs' r'] |] eqn:Hm.
    + intros [= <- <- <-]. now apply match_here_sound in Hm.
    + destruct (search p s) as [[[pre' gs'] r'] |] eqn:Hs; [| discriminate].
      intros [= <- <- <-].
      destruct (IH _ _ _ eq_refl) as (m & Hm' & ->). eauto.
Qed.

Lemma search_complete (p : pattern) (s1 s2 : string) :
  is_Some (match_here p s2) → is_Some (search p (s1 +:+ s2)).
Proof.
  intros [[gs r] Hm]. induction s1 as [|c s1 IH]; simpl.
  - destruct s2; simpl in *; rewrite Hm; eauto.
  - destruct (match_here p (String c (s1 +:+ s2))) as [[gs' r'] |]; [eauto |].
    destruct IH as [[[pre' gs'] r'] ->]. eauto.
Qed.

Lemma search_none_here (p : pattern) (s : string) :
  search p s = None → match_here p s = None.
Proof.
  destruct s; simpl; destruct (match_here p _) as [[gs r] |]; congruence.
Qed.

Lemma greedy_only cls (s : string) :
  forall_char cls s = true →
  match_here [Greedy1 cls] s
  = match s with
    | EmptyString => None
    | _ => Some ([s], EmptyString)
    end.
Proof.
  induction s as [|c s IHs]; intros Hs; [reflexivity |].
  simpl in Hs. apply andb_prop in Hs as [Hc Hs]. simpl. rewrite Hc.
  match goal with |- context [match ?x with _ => _ end] =>
    change x with (match_here [Greedy1 cls] s) end.
  rewrite (IHs Hs). now destruct s.
Qed.

(** A pattern that ends in a greedy group takes the text to its end when
    every character is of the group's class. *)
Lemma match_here_greedy_tail (q : pattern) cls (s : string) gs r :
  forall_char cls s = true →
  match_here (q ++ [Greedy1 cls]) s = Some (gs, r) → r = EmptyString.
Proof.
  revert s gs r; induction q as [|t q IH]; intros s gs r.
  - intros Hs. change ([] ++ [Greedy1 cls]) with [Greedy1 cls].
    rewrite (greedy_only cls s Hs). destruct s; [discriminate |].
    now intros [= <- <-].
  - destruct t as [l | cls' | cls']; simpl.
    + intros Hs. destruct (strip_prefix l s) as [s' |] eqn:Hl; [| discriminate].
      apply strip_prefix_inv in Hl as ->.
      rewrite forall_char_app in Hs. apply andb_prop in Hs as [_ Hs].
      now apply IH.
    + revert gs r. induction s as [|c s IHs]; intros gs r Hs; simpl; [discriminate |].
      simpl in Hs. apply andb_prop in Hs as [_ Hs].
      destruct (cls' c); [| discriminate].
      destruct (match_here (q ++ [Greedy1 cls]) s) as [[gs' r'] |] eqn:Hq.
      * intros [= <- <-]. now apply (IH _ _ _ Hs Hq).
      * match goal with |- context [match ?x with _ => _ end] =>
          destruct x as [[[|g1 gs1] r1] |] eqn:Hx end; try discriminate.
        intros [= <- <-]. exact (IHs _ _ Hs eq_refl).
    + revert gs r. induction s as [|c s IHs]; intros gs r Hs; simpl; [discriminate |].
      simpl in Hs. apply andb_prop in Hs as [_ Hs].
      destruct (cls' c); [| discriminate].
      match goal with |- context [match ?x with _ => _ end] =>
        destruct x as [[[|g1 gs1] r1] |] eqn:Hx end.
      * destruct (match_here (q ++ [Greedy1 cls]) s) as [[gs' r'] |] eqn:Hq; [| discriminate].
        intros [= <- <-]. now apply (IH _ _ _ Hs Hq).
      * intros [= <- <-]. exact (IHs _ _ Hs eq_refl).
      * destruct (match_here (q ++ [Greedy1 cls]) s) as [[gs' r'] |] eqn:Hq; [| discriminate].
        intros [= <- <-]. now apply (IH _ _ _ Hs Hq).
Qed.

Lemma forall_char_suffix (f : ascii → bool) (a b : string) :
  forall_char f (a +:+ b) = true → forall_char f b = true.
Proof. rewrite forall_char_app. intros H. now apply andb_prop in H. Qed.

Lemma search_greedy_tail (q : pattern) cls (s : string) pre gs r :
  forall_char cls s = true →
  search (q ++ [Greedy1 cls]) s = Some (pre, gs, r) → r = EmptyString.
Proof.
  intros Hs Hm. apply search_sound in Hm as Hsplit.
  destruct Hsplit as (m & _ & Heq).
  revert pre gs r Hm m Heq. induction s as [|c s IH]; intros pre gs r; simpl.
  - destruct (match_here _ EmptyString) as [[gs' r'] |] eqn:Hh; [| discriminate].
    intros [= <- <- <-] _ _. now apply (match_here_greedy_tail q cls EmptyString gs' r').
  - destruct (match_here _ (String c s)) as [[gs' r'] |] eqn:Hh.
    + intros [= <- <- <-] _ _. now apply (match_here_greedy_tail q cls (String c s) gs' r').
    + destruct (search _ s) as [[[pre' gs'] r'] |] eqn:Hs'; [| discriminate].
      intros [= <- <- <-] m Heq. simpl in Hs. apply andb_prop in Hs as [_ Hs].
      simpl in Heq. injection Heq as Heq.
      exact (IH Hs _ _ _ eq_refl m Heq).
Qed.

(** A match inside the first line is the leftmost match of the text. *)
Lemma search_line_hit (p : pattern) (a b : string) pre gs r :
  forallb tok_one_line p = true →
  search p a = Some (pre, gs, r) →
  search p (a +:+ String LF b) = Some (pre, gs, r +:+ String LF b).
Proof.
  intros Hp. revert pre gs r. induction a as [|c a IH]; intros pre gs r; simpl.
  - destruct (match_here p EmptyString) as [[gs' r'] |] eqn:Hh; [| discriminate].
    intros [= <- <- <-].
    pose proof (match_here_line p EmptyString b Hp) as Hl. simpl in Hl.
    rewrite Hh in Hl. simpl in Hl. now rewrite Hl.
  - pose proof (match_here_line p (String c a) b Hp) as Hl. simpl in Hl.
    rewrite Hl.
    destruct (match_here p (String c a)) as [[gs' r'] |] eqn:Hh; simpl.
    + now intros [= <- <- <-].
    + destruct (search p a) as [[[pre' gs'] r'] |] eqn:Hs; [| discriminate].
      intros [= <- <- <-]. now rewrite (IH _ _ _ eq_refl).
Qed.

(** With no match in the first line, the search goes on after it. *)
Lemma search_line_miss (p : pattern) (a b : string) :
  forallb tok_one_line p = true →
  search p a = None →
  search p (a +:+ String LF b)
  = option_map (λ x, (a +:+ String LF (fst (fst x)), snd (fst x), snd x))
      (search p b).
Proof.
  intros Hp. induction a as [|c a IH]; intros Ha.
  - apply search_none_here in Ha.
    pose proof (match_here_line p EmptyString b Hp) as Hl. simpl in Hl.
    rewrite Ha in Hl. simpl in Hl. simpl. rewrite Hl.
    destruct (search p b) as [[[pre gs] r] |]; reflexivity.
  - pose proof (search_none_here _ _ Ha) as Hh.
    pose proof (match_here_line p (String c a) b Hp) as Hl. simpl in Hl.
    rewrite Hh in Hl. simpl in Hl.
    simpl in Ha. rewrite Hh in Ha.
    destruct (search p a) as [[[pre gs] r] |] eqn:Hs; [discriminate |].
    simpl. rewrite Hl, (IH eq_refl).
    destruct (search p b) as [[[pre gs] r] |]; reflexivity.
Qed.

(** The leftmost match is where no earlier position matches. *)
Lemma search_first (p : pattern) (pre X : string) gs r :
  (∀ a b, pre = a +:+ b → b ≠ EmptyString → match_here p (b +:+ X) = None) →
  match_here p X = Some (gs, r) →
  search p (pre +:+ X) = Some (pre, gs, r).
Proof.
  intros Hpre HX. induction pre as [|c pre IH].
  - destruct X; simpl in *; now rewrite HX.
  - pose proof (Hpre EmptyString (String c pre) eq_refl ltac:(discriminate)) as H0.
    cbn [String.append] in H0. cbn [String.append search]. rewrite H0.
    rewrite IH; [reflexivity |].
    intros a b -> Hb. exact (Hpre (String c a) b eq_refl Hb).
Qed.

Lemma lazy_unfold cls (p : pattern) (c : ascii) (s : string) :
  match_here (Lazy1 cls :: p) (String c s)
  = if cls c then
      match match_here p s with
      | Some (gs, r) => Some (String c EmptyString :: gs, r)
      | None =>
          match match_here (Lazy1 cls :: p) s with
          | Some (g :: gs, r) => Some (String c g :: gs, r)
          | _ => None
          end
      end
    else None.
Proof. reflexivity. Qed.

(** A lazy group stops at the first character that ends it. *)
Lemma lazy_stops_at cls (q : ascii) (p : pattern) (g rest : string) gs r :
  g ≠ EmptyString →
  forall_char (λ c, cls c && negb (Ascii.eqb c q)) g = true →
  match_here p rest = Some (gs, r) →
  match_here (Lazy1 cls :: Lit (String q EmptyString) :: p) (g +:+ String q rest)
  = Some (g :: gs, r).
Proof.
  intros Hg Hcls Hrest. induction g as [|c g IH]; [congruence |].
  cbn [forall_char] in Hcls. apply andb_prop in Hcls as [Hc Hcls].
  apply andb_prop in Hc as [Hc Hq].
  change (String c g +:+ String q rest) with (String c (g +:+ String q rest)).
  rewrite lazy_unfold, Hc.
  destruct g as [|c' g].
  - cbn [String.append match_here strip_prefix]. rewrite Ascii.eqb_refl, Hrest.
    reflexivity.
  - rewrite (IH ltac:(discriminate) Hcls).
    cbn [forall_char] in Hcls. apply andb_prop in Hcls as [Hc' _].
    apply andb_prop in Hc' as [_ Hc'2]. apply negb_true_iff in Hc'2.
    cbn [String.append match_here strip_prefix].
    rewrite (Ascii.eqb_sym q c'), Hc'2. reflexivity.
Qed.

End ReFacts.

(** * The failure parser *)

Module ParserFacts.
Import Re ReFacts.

Lemma failure_pattern_one_line : forallb tok_one_line failure_pattern = true.
Proof. reflexivity. Qed.

Lemma failure_pattern_greedy :
  failure_pattern
  = [Lit "FAILED "; Lazy1 dot; Lit "::"; Lazy1 dot; Lit " - "] ++ [Greedy1 dot].
Proof. reflexivity. Qed.

Lemma search_failure_rest (line : string) pre gs r :
  forall_char not_LF line = true →
  search failure_pattern line = Some (pre, gs, r) → r = EmptyString.
Proof.
  rewrite failure_pattern_greedy. apply search_greedy_tail.
Qed.

(** The scan passes a line feed without a match. *)
Lemma finditer_skip_LF (n : nat) (s : string) :
  finditer_from n failure_pattern (String LF s)
  = finditer_from n failure_pattern s.
Proof.
  destruct n as [|n]; [reflexivity |].
  cbn [finditer_from search].
  change (match_here failure_pattern (String LF s)) with (@None (list string * string)).
  cbv iota. destruct (search failure_pattern s) as [[[pre gs] r] |]; reflexivity.
Qed.

Lemma omap_cons_eq {A B} (f : A → option B) (x : A) (l : list A) :
  omap f (x :: l)
  = match f x with Some y => y :: omap f l | None => omap f l end.
Proof. reflexivity. Qed.

Lemma finditer_lines (ls : list string) :
  ls ≠ [] →
  Forall (λ l, forall_char not_LF l = true) ls →
  ∀ n, String.length (join (String LF EmptyString) ls) < n →
    finditer_from n failure_pattern (join (String LF EmptyString) ls)
    = omap line_groups ls.
Proof.
  induction ls as [|a ls IH]; [congruence |]. intros _ Hall n Hn.
  inversion Hall as [|? ? Ha Hls]; subst.
  destruct ls as [|b ls].
  - simpl in Hn |- *. destruct n as [|n]; [lia |].
    unfold line_groups. cbn [finditer_from].
    destruct (search failure_pattern a) as [[[pre gs] r] |] eqn:Hs; [| reflexivity].
    apply (search_failure_rest a) in Hs as ->; [| assumption].
    f_equal. now destruct n.
  - change (join (String LF EmptyString) (a :: b :: ls))
      with (a +:+ String LF (join (String LF EmptyString) (b :: ls))) in *.
    rewrite sapp_length in Hn. cbn [String.length] in Hn.
    destruct n as [|n]; [lia |].
    rewrite omap_cons_eq. unfold line_groups at 1.
    destruct (search failure_pattern a) as [[[pre gs] r] |] eqn:Hs.
    + pose proof (search_failure_rest a _ _ _ Ha Hs) as ->.
      cbn [finditer_from].
      rewrite (search_line_hit _ _ _ _ _ _ failure_pattern_one_line Hs).
      simpl (EmptyString +:+ _). rewrite finditer_skip_LF.
      rewrite IH; [reflexivity | discriminate | assumption | lia].
    + rewrite <- (IH ltac:(discriminate) Hls (S n) ltac:(lia)).
      cbn [finditer_from].
      rewrite (search_line_miss _ _ _ failure_pattern_one_line Hs).
      destruct (search failure_pattern (join (String LF EmptyString) (b :: ls)))
        as [[[pre gs] r] |]; reflexivity.
Qed.

Lemma omap_line_record (ls : list string) :
  omap record_of_groups (omap line_groups ls) = omap failed_line ls.
Proof.
  induction ls as [|l ls IH]; [reflexivity |].
  rewrite !omap_cons_eq. unfold failed_line at 1, line_groups at 1.
  destruct (search failure_pattern l) as [[[pre gs] r] |]; [| exact IH].
  rewrite omap_cons_eq. destruct (record_of_groups gs); now rewrite IH.
Qed.

Lemma failure_matches_inv gs m :
  Matches failure_pattern gs m →
  ∃ f t e, gs = [f; t; e] ∧ f ≠ EmptyString ∧ t ≠ EmptyString ∧ e ≠ EmptyString
    ∧ m = "FAILED " +:+ f +:+ "::" +:+ t +:+ " - " +:+ e.
Proof.
  unfold failure_pattern. intros H.
  repeat match goal with
         | H : Matches (_ :: _) _ _ |- _ => inversion H; clear H; subst
         | H : Matches [] _ _ |- _ => inversion H; clear H; subst
         end.
  do 3 eexists. repeat split; try eassumption.
  now rewrite sapp_nil_r.
Qed.

(** A record found in a line spells the line out. *)
Lemma failed_line_sound (line : string) (r : FailureRecord) :
  forall_char not_LF line = true →
  failed_line line = Some r →
  f_file r ≠ EmptyString ∧ f_test r ≠ EmptyString ∧ f_error r ≠ EmptyString
  ∧ ∃ pre, line = pre +:+ "FAILED " +:+ f_file r +:+ "::" +:+ f_test r
                     +:+ " - " +:+ f_error r.
Proof.
  intros Hline. unfold failed_line.
  destruct (search failure_pattern line) as [[[pre gs] rest] |] eqn:Hs; [| discriminate].
  pose proof (search_failure_rest _ _ _ _ Hline Hs) as ->.
  apply search_sound in Hs as (m & Hm & ->).
  apply failure_matches_inv in Hm as (f & t & e & -> & Hf & Ht & He & ->).
  intros [= <-]. cbn [f_file f_test f_error].
  repeat split; try assumption.
  exists pre. now rewrite sapp_nil_r.
Qed.

(** Every well-formed line yields a record. *)
Lemma failed_line_complete (line : string) :
  forall_char not_LF line = true →
  well_formed_line line → is_Some (failed_line line).
Proof.
  intros Hline (pre & f & t & e & Hf & Ht & He & ->).
  assert (Hm : Matches failure_pattern [f; t; e]
                 ("FAILED " +:+ f +:+ "::" +:+ t +:+ " - " +:+ e +:+ EmptyString)).
  { repeat rewrite !forall_char_app in Hline.
    repeat match type of Hline with _ && _ = true =>
      let H := fresh "H" in apply andb_prop in Hline as [H Hline] end.
    repeat match goal with H : _ && _ = true |- _ =>
      let H' := fresh "H" in apply andb_prop in H as [H' H] end.
    unfold failure_pattern. repeat constructor; assumption. }
  rewrite sapp_nil_r in Hm.
  pose proof (match_here_complete _ _ _ Hm EmptyString) as Hh.
  rewrite sapp_nil_r in Hh.
  destruct (search_complete failure_pattern pre _ Hh) as [[[pre' gs] r] Hs].
  unfold failed_line. rewrite Hs.
  apply search_sound in Hs as (m & Hm' & _).
  apply failure_matches_inv in Hm' as (f' & t' & e' & -> & _). simpl. eauto.
Qed.

End ParserFacts.

(** C5. The parser returns, in the order of the output, one record for each
    line that holds [FAILED <file>::<test> - <reason>] and nothing else: a
    line seen twice gives two records, and an output with no such line
    gives the empty list.  The record of a line spells that line out. *)
Theorem parse_test_failures_by_line (test_output : string) :
  let lines := split_char LF test_output in
  parse_test_failures test_output = omap failed_line lines
  ∧ (∀ line, line ∈ lines → (is_Some (failed_line line) ↔ well_formed_line line))
  ∧ (∀ line r, line ∈ lines → failed_line line = Some r →
       ∃ pre, line = pre +:+ "FAILED " +:+ f_file r +:+ "::" +:+ f_test r
                        +:+ " - " +:+ f_error r)
  ∧ ((∀ line, line ∈ lines → ¬ well_formed_line line) →
       parse_test_failures test_output = []).
Proof.
  intros lines.
  destruct (split_char_join test_output) as (Hjoin & Hall & Hne).
  fold lines in Hjoin, Hall, Hne.
  assert (Hparse : parse_test_failures test_output = omap failed_line lines).
  { unfold parse_test_failures, Re.finditer.
    rewrite <- Hjoin at 2.
    rewrite (ParserFacts.finditer_lines lines Hne Hall); [| rewrite Hjoin; lia].
    apply ParserFacts.omap_line_record. }
  assert (Hfree : ∀ line, line ∈ lines → forall_char not_LF line = true).
  { intros line Hin. rewrite Forall_forall in Hall. now apply Hall. }
  split; [exact Hparse |]. split; [| split].
  - intros line Hin. split.
    + intros [r Hr].
      destruct (ParserFacts.failed_line_sound line r (Hfree _ Hin) Hr)
        as (Hf & Ht & He & pre & Hl).
      exists pre, (f_file r), (f_test r), (f_error r). auto.
    + apply ParserFacts.failed_line_complete. auto.
  - intros line r Hin Hr.
    now destruct (ParserFacts.failed_line_sound line r (Hfree _ Hin) Hr)
      as (_ & _ & _ & Hpre).
  - intros Hnone. rewrite Hparse.
    assert (Hno : ∀ line, line ∈ lines → failed_line line = None).
    { intros line Hin. destruct (failed_line line) eqn:Hf; [| reflexivity].
      exfalso. apply (Hnone line Hin).
      destruct (ParserFacts.failed_line_sound line _ (Hfree _ Hin) Hf)
        as (? & ? & ? & pre & ?).
      exists pre, (f_file f), (f_test f), (f_error f). auto. }
    clear -Hno. induction lines as [|l ls IH]; [reflexivity |].
    rewrite ParserFacts.omap_cons_eq, (Hno l); [| left].
    apply IH. intros line Hin. apply Hno. now right.
Qed.

(** * The learning store *)

Module StoreFacts.

Lemma set_get {V} (k : string) (v : V) d : PyDict.get k (PyDict.set k v d) = Some v.
Proof.
  induction d as [|[k' v'] d IH]; simpl.
  - now rewrite String.eqb_refl.
  - destruct (String.eqb k' k) eqn:E; simpl; now rewrite E.
Qed.

Lemma set_get_ne {V} (k k0 : string) (v : V) d :
  k0 ≠ k → PyDict.get k0 (PyDict.set k v d) = PyDict.get k0 d.
Proof.
  intros Hne. induction d as [|[k' v'] d IH]; simpl.
  - destruct (String.eqb_spec k k0); [congruence | reflexivity].
  - destruct (String.eqb_spec k' k) as [-> | Hk]; simpl.
    + destruct (String.eqb_spec k k0); [congruence | reflexivity].
    + now rewrite IH.
Qed.

Lemma set_present {V} (k : string) (v : V) d :
  k ∈ PyDict.keys d →
  PyDict.keys (PyDict.set k v d) = PyDict.keys d
  ∧ length (PyDict.set k v d) = length d.
Proof.
  unfold PyDict.keys. induction d as [|[k' v'] d IH]; simpl; intros Hin.
  - now apply elem_of_nil in Hin.
  - destruct (String.eqb_spec k' k) as [-> | Hk]; simpl; [auto |].
    apply elem_of_cons in Hin as [-> | Hin]; [congruence |].
    destruct (IH Hin) as [-> ->]. auto.
Qed.

Lemma set_fresh {V} (k : string) (v : V) d :
  k ∉ PyDict.keys d → PyDict.set k v d = d ++ [(k, v)].
Proof.
  unfold PyDict.keys. induction d as [|[k' v'] d IH]; simpl; intros Hin; [reflexivity |].
  apply not_elem_of_cons in Hin as [Hne Hin].
  destruct (String.eqb_spec k' k) as [-> | _]; [congruence |].
  now rewrite IH.
Qed.

(** Building a mapping entry by entry from keys that are all different
    gives the entries in their order. *)
Lemma fold_set_fresh (es acc : list (string * string)) :
  NoDup (PyDict.keys (acc ++ es)) →
  fold_left (λ a kv, PyDict.set (fst kv) (snd kv) a) es acc = acc ++ es.
Proof.
  revert acc; induction es as [|[k v] es IH]; intros acc Hnd; simpl.
  - now rewrite app_nil_r.
  - assert (Hk : k ∉ PyDict.keys acc).
    { unfold PyDict.keys in *. rewrite map_app in Hnd.
      apply NoDup_app in Hnd as (_ & Hd & _). intros Hin.
      apply (Hd k Hin). simpl. left. }
    rewrite (set_fresh k v acc Hk).
    rewrite IH; rewrite <- app_assoc; [reflexivity | exact Hnd].
Qed.

End StoreFacts.

Module JsonFacts.
Import Json.

(** Reading back the escape of one character gives the character. *)
Lemma scan_escape_char (c : ascii) (t : string) :
  scan_string (escape_char c +:+ t)
  = match scan_string t with
    | Some (u, r) => Some (String c u, r)
    | None => None
    end.
Proof.
  destruct c as [[] [] [] [] [] [] [] []]; reflexivity.
Qed.

Lemma scan_escape (s rest : string) :
  scan_string (escape s +:+ String DQ rest) = Some (s, rest).
Proof.
  induction s as [|c s IH]; [reflexivity |].
  cbn [escape]. rewrite sapp_assoc, scan_escape_char, IH. reflexivity.
Qed.

Lemma parse_encode_string (s rest : string) :
  parse_string (encode_string s +:+ rest) = Some (s, rest).
Proof.
  unfold encode_string. cbn [String.append parse_string].
  rewrite Ascii.eqb_refl, sapp_assoc. apply scan_escape.
Qed.

Lemma skip_ws_encode (s t : string) :
  skip_ws (encode_string s +:+ t) = encode_string s +:+ t.
Proof. reflexivity. Qed.

Lemma item_more (k v tail : string) acc (n : nat) :
  parse_members (S n) (String LF (encode_item (k, v) +:+ String "," tail)) acc
  = parse_members n tail (PyDict.set k v acc).
Proof.
  unfold encode_item, indent4. cbn [fst snd]. rewrite !sapp_assoc.
  cbn [parse_members].
  change (skip_ws (String LF ("    " +:+ ?x))) with (skip_ws x).
  rewrite skip_ws_encode, parse_encode_string.
  change (skip_ws (": " +:+ ?x)) with (String ":" (" " +:+ x)).
  cbv iota beta.
  change (skip_ws (" " +:+ ?x)) with (skip_ws x).
  rewrite skip_ws_encode, parse_encode_string.
  reflexivity.
Qed.

Lemma item_last (k v : string) acc (n : nat) :
  parse_members (S n) (String LF (encode_item (k, v) +:+ String LF "}")) acc
  = Some (PyDict.set k v acc).
Proof.
  unfold encode_item, indent4. cbn [fst snd]. rewrite !sapp_assoc.
  cbn [parse_members].
  change (skip_ws (String LF ("    " +:+ ?x))) with (skip_ws x).
  rewrite skip_ws_encode, parse_encode_string.
  change (skip_ws (": " +:+ ?x)) with (String ":" (" " +:+ x)).
  cbv iota beta.
  change (skip_ws (" " +:+ ?x)) with (skip_ws x).
  rewrite skip_ws_encode, parse_encode_string.
  reflexivity.
Qed.

Lemma parse_members_text (es : list (string * string)) :
  es ≠ [] → ∀ acc fuel, length es ≤ fuel →
  parse_members fuel (members_text es) acc
  = Some (fold_left (λ a kv, PyDict.set (fst kv) (snd kv) a) es acc).
Proof.
  induction es as [|[k v] es IH]; [congruence |]. intros _ acc fuel Hfuel.
  destruct fuel as [|n]; [simpl in Hfuel; lia |].
  destruct es as [|e es].
  - apply item_last.
  - change (members_text ((k, v) :: e :: es))
      with (String LF (encode_item (k, v) +:+ String "," (members_text (e :: es)))).
    rewrite item_more. rewrite IH; [reflexivity | discriminate | simpl in *; lia].
Qed.

Lemma dumps_members (es : list (string * string)) :
  es ≠ [] → dumps es = String "{" (members_text es).
Proof.
  destruct es as [|e es]; [congruence |]. intros _.
  unfold dumps. f_equal. revert e.
  induction es as [|e' es IH]; intros e; [reflexivity |].
  change (members_text (e :: e' :: es))
    with (String LF (encode_item e +:+ String "," (members_text (e' :: es)))).
  rewrite <- IH. cbn [map join]. f_equal.
  rewrite !sapp_assoc. reflexivity.
Qed.

Lemma members_text_length (es : list (string * string)) :
  length es ≤ String.length (members_text es).
Proof.
  induction es as [|e es IH]; [simpl; lia |].
  destruct es as [|e' es]; [simpl; lia |].
  change (members_text (e :: e' :: es))
    with (String LF (encode_item e +:+ String "," (members_text (e' :: es)))).
  cbn [String.length length] in *. rewrite sapp_length. cbn [String.length]. lia.
Qed.

(** [json.loads(json.dumps(db, indent=4)) == db], order included, for a
    mapping whose keys are all different. *)
Lemma loads_dumps (db : list (string * string)) :
  NoDup (PyDict.keys db) → loads (dumps db) = Some db.
Proof.
  intros Hnd. destruct db as [|e es] eqn:Hdb; [reflexivity |]. rewrite <- Hdb in *.
  assert (Hne : db ≠ []) by (subst; discriminate).
  rewrite (dumps_members db Hne). unfold loads.
  change (skip_ws (String "{" ?x)) with (String "{" x). cbv iota beta.
  assert (Hskip : ∃ x, skip_ws (members_text db) = String DQ x).
  { subst db. destruct es; simpl; eauto. }
  destruct Hskip as [x ->].
  change (match String DQ x with String "}" s2 => ?a | _ => ?b end) with b.
  rewrite parse_members_text; [| assumption |].
  - rewrite StoreFacts.fold_set_fresh; [reflexivity | exact Hnd].
  - pose proof (members_text_length db). cbn [String.length]. lia.
Qed.

End JsonFacts.

(** * The agent *)

Section AgentFacts.
Context `{Collaborators}.

Lemma fs_read_write (fs : FS) (path content : string) :
  fs_read (fs_write fs path content) path = Some content.
Proof. unfold fs_read, fs_write. apply lookup_insert_eq. Qed.

Lemma fs_write_same (fs : FS) (path content : string) :
  fs_read fs path = Some content → fs_write fs path content = fs.
Proof. unfold fs_read, fs_write. apply insert_id. Qed.

Lemma with_fs_same (w : World) : with_fs w (w_fs w) = w.
Proof. now destruct w. Qed.

(** C7. Saving the store and loading it again gives the mapping that was
    saved, entries in the order they were inserted; and with no store
    file on disk the store loads as empty, without an error. *)
Theorem learning_db_round_trip (w : World)
  (Hkeys : NoDup (PyDict.keys (w_db w))) :
  (∃ w', _save_learning_db w = (w', Ret tt)
         ∧ _load_learning_db (w_fs w') = w_db w)
  ∧ (∀ fs, fs_exists fs LEARNING_DB_PATH = false →
           _load_learning_db fs = [] ∧ w_db (init_world fs) = []).
Proof.
  split.
  - eexists. split; [reflexivity |].
    unfold _load_learning_db. cbn [fst w_fs with_fs].
    rewrite fs_read_write, (JsonFacts.loads_dumps _ Hkeys). reflexivity.
  - intros fs Hfs. unfold init_world, _load_learning_db, fs_exists in *.
    cbn [w_db]. destruct (fs_read fs LEARNING_DB_PATH); [discriminate | auto].
Qed.

(** C10. Storing a fix under an error text that is already a key
    replaces the payload where the key stands: the keys, their order and
    the number of entries stay; a text that is no key yet is added as the
    last entry.  Other keys keep their payloads. *)
Theorem store_learned_fix_in_place (error_msg fix_str : string) (w : World) :
  let db := w_db w in
  let db' := w_db (fst (_store_learned_fix error_msg fix_str w)) in
  PyDict.get error_msg db' = Some fix_str
  ∧ (∀ k, k ≠ error_msg → PyDict.get k db' = PyDict.get k db)
  ∧ (error_msg ∈ PyDict.keys db →
       PyDict.keys db' = PyDict.keys db ∧ length db' = length db)
  ∧ (error_msg ∉ PyDict.keys db → db' = db ++ [(error_msg, fix_str)]).
Proof.
  cbn zeta. cbn.
  repeat split.
  - apply StoreFacts.set_get.
  - intros k Hk. now apply StoreFacts.set_get_ne.
  - now apply StoreFacts.set_present.
  - now apply StoreFacts.set_present.
  - apply StoreFacts.set_fresh.
Qed.

(** The module name is found at the first [No module named '<mod>']. *)
Lemma no_module_extracts (pre missing_module post : string) :
  missing_module ≠ EmptyString →
  forall_char (λ c, Re.dot c && negb (Ascii.eqb c "'")) missing_module = true →
  str_in "No module named '" (pre +:+ "No module named ") = false →
  Re.search no_module_pattern
    (pre +:+ "No module named '" +:+ missing_module +:+ "'" +:+ post)
  = Some (pre, [missing_module], post).
Proof.
  intros Hmod Hname Hfirst. apply ReFacts.search_first.
  - intros a b -> Hb. unfold no_module_pattern. cbn [Re.match_here].
    rewrite sapp_assoc in Hfirst. apply str_in_false_suffix in Hfirst.
    apply (strip_prefix_none_app _ _ ("'" +:+ missing_module +:+ "'" +:+ post)) in Hfirst.
    + rewrite sapp_assoc in Hfirst. cbn [String.append] in Hfirst |- *.
      now rewrite Hfirst.
    + rewrite sapp_length. destruct b; [congruence | simpl; lia].
  - unfold no_module_pattern. cbn [Re.match_here].
    rewrite strip_prefix_app.
    exact (ReFacts.lazy_stops_at Re.dot "'" [] missing_module post [] post
             Hmod Hname eq_refl).
Qed.

Lemma insert_stub_absent (marker stub : string) (lines : list string) :
  existsb (str_in marker) lines = false → insert_stub marker stub lines = lines.
Proof.
  induction lines as [|l ls IH]; [reflexivity |]. cbn [existsb insert_stub].
  intros Hex. apply orb_false_elim in Hex as [-> Hls]. now rewrite IH.
Qed.



Ltac run_steps :=
  unfold bind, path_exists, fs_exists, try_except, read_text, write_text,
    ret, lift.

Ltac run_with Hf :=
  cbn beta iota zeta; cbn [negb]; rewrite ?Hf; cbn beta iota zeta.

(** What the second run of the indentation fix finds: the text of the
    first run. *)
Lemma indentation_run (file_name : string) (w : World) :
  _quick_fix_indentation file_name w
  = match fs_read (w_fs w) (test_path file_name) with
    | Some text =>
        (with_fs w (fs_write (w_fs w) (test_path file_name)
                      (replace_char TAB "    " text)), Ret true)
    | None => (w, Ret false)
    end.
Proof.
  unfold _quick_fix_indentation. run_steps.
  destruct (fs_read (w_fs w) (test_path file_name)) as [text |] eqn:Hf;
    [| reflexivity].
  run_with Hf. now rewrite replace_char_lines.
Qed.

Lemma import_run (file_name error_msg : string) (w : World) :
  _quick_fix_import_error file_name error_msg w
  = match Re.search no_module_pattern error_msg with
    | Some (_, [missing_module], _) =>
        match fs_read (w_fs w) (test_path file_name) with
        | Some text =>
            if already_imported missing_module (readlines text) then (w, Ret false)
            else (with_fs w (fs_write (w_fs w) (test_path file_name)
                               ("import " +:+ missing_module +:+ String LF text)),
                  Ret true)
        | None => (w, Ret false)
        end
    | _ => (w, Ret false)
    end.
Proof.
  unfold _quick_fix_import_error.
  destruct (Re.search no_module_pattern error_msg) as [[[pre gs] post] |];
    [| reflexivity].
  destruct gs as [|m [|m' gs]]; try reflexivity.
  run_steps.
  destruct (fs_read (w_fs w) (test_path file_name)) as [text |] eqn:Hf;
    [| reflexivity].
  run_with Hf.
  destruct (already_imported m (readlines text)); [reflexivity |].
  cbn [writelines]. rewrite writelines_readlines, !sapp_assoc. reflexivity.
Qed.

(** What the substring test decides. *)
Lemma str_in_contains (x s : string) : str_in x s = true ↔ contains x s.
Proof.
  split.
  - induction s as [|c s IH]; cbn [str_in]; intros Hin;
      apply orb_true_iff in Hin as [Hin | Hin].
    + unfold startswith in Hin.
      destruct (strip_prefix x EmptyString) as [r |] eqn:E; [| discriminate].
      apply strip_prefix_inv in E. now exists EmptyString, r.
    + discriminate.
    + unfold startswith in Hin.
      destruct (strip_prefix x (String c s)) as [r |] eqn:E; [| discriminate].
      apply strip_prefix_inv in E. now exists EmptyString, r.
    + destruct (IH Hin) as (a & b & ->). now exists (String c a), b.
  - intros (a & b & ->). apply str_in_app_mid.
Qed.

Lemma existsb_some {A} (f : A → bool) (l : list A) :
  existsb f l = true ↔ ∃ x, x ∈ l ∧ f x = true.
Proof.
  rewrite existsb_exists. split; intros (x & Hx & Hf); exists x;
    (split; [now apply list_elem_of_In | assumption]).
Qed.



(** The test of the import fix: some line holds both [import] and the
    name of the module, wherever in the line and whatever around them. *)
Lemma already_imported_spec (missing_module : string) (lines : list string) :
  already_imported missing_module lines = true
  ↔ ∃ line, line ∈ lines
            ∧ contains "import" line ∧ contains missing_module line.
Proof.
  unfold already_imported, mentions_import. rewrite existsb_some.
  split.
  - intros (line & Hl & Hboth). apply andb_prop in Hboth as [Hi Hm].
    exists line. split; [assumption |]. split; now apply str_in_contains.
  - intros (line & Hl & Hi & Hm). exists line. split; [assumption |].
    apply andb_true_intro. split; now apply str_in_contains.
Qed.

(** C9. With the module name taken from the first [No module named
    '<mod>'] of the error text and the target file present: when no line
    of the file holds both the text [import] and the name, the file gets
    [import <mod>] as its first line and the matcher reports success; when
    some line holds both, be it an import of that module or not, the
    matcher reports failure and the file is untouched. *)
Theorem quick_fix_import_error_inserts
    (file_name pre missing_module post text : string) (w : World)
    (Hmod : missing_module ≠ EmptyString)
    (Hname : forall_char (λ c, Re.dot c && negb (Ascii.eqb c "'"))
               missing_module = true)
    (Hfirst : str_in "No module named '" (pre +:+ "No module named ") = false)
    (Hfile : fs_read (w_fs w) (test_path file_name) = Some text) :
  let error_msg :=
    pre +:+ "No module named '" +:+ missing_module +:+ "'" +:+ post in
  let import_line := "import " +:+ missing_module +:+ String LF EmptyString in
  Re.search no_module_pattern error_msg = Some (pre, [missing_module], post)
  ∧ ((∀ line, line ∈ readlines text →
              ¬ (contains "import" line ∧ contains missing_module line)) →
       _quick_fix_import_error file_name error_msg w
       = (with_fs w (fs_write (w_fs w) (test_path file_name) (import_line +:+ text)),
          Ret true)
       ∧ readlines (import_line +:+ text) = import_line :: readlines text)
  ∧ ((∃ line, line ∈ readlines text
              ∧ contains "import" line ∧ contains missing_module line) →
       _quick_fix_import_error file_name error_msg w = (w, Ret false)).
Proof.
  intros error_msg import_line.
  pose proof (no_module_extracts pre missing_module post Hmod Hname Hfirst) as Hs.
  fold error_msg in Hs. split; [exact Hs |].
  rewrite import_run, Hs, Hfile.
  split.
  2: { intros Hsome. apply already_imported_spec in Hsome.
       now rewrite Hsome. }
  intros Hnone.
  assert (Himp : already_imported missing_module (readlines text) = false).
  { destruct (already_imported missing_module (readlines text)) eqn:E;
      [| reflexivity].
    apply already_imported_spec in E as (line & Hl & Hboth).
    now destruct (Hnone line Hl). }
  rewrite Himp.
  assert (Hline : import_line +:+ text
                  = ("import " +:+ missing_module) +:+ String LF text).
  { unfold import_line. now rewrite !sapp_assoc. }
  split.
  - rewrite Hline, sapp_assoc. reflexivity.
  - rewrite Hline, readlines_line; [unfold import_line; now rewrite !sapp_assoc |].
    rewrite forall_char_app. cbn [forall_char not_LF]. cbn.
    clear -Hname. induction missing_module as [|c m IH]; [reflexivity |].
    cbn [forall_char] in *. apply andb_prop in Hname as [Hc Hm].
    apply andb_prop in Hc as [Hc _]. unfold Re.dot in Hc. rewrite Hc. now apply IH.
Qed.








(** ** Steps that touch nothing but the files *)

Lemma fs_only_ret {A} (a : A) : fs_only (ret a).
Proof. intros w. auto. Qed.

Lemma fs_only_raise {A} (e : exn) : fs_only (@raise A e).
Proof. intros w. auto. Qed.

Lemma fs_only_lift {A} (r : result A) : fs_only (lift r).
Proof. intros w. auto. Qed.

Lemma fs_only_bind {A B} (m : M A) (k : A → M B) :
  fs_only m → (∀ a, fs_only (k a)) → fs_only (bind m k).
Proof.
  intros Hm Hk w. unfold bind. destruct (Hm w) as [Hd Hl].
  destruct (m w) as [w' [a | e]]; cbn [fst] in *; [| auto].
  destruct (Hk a w') as [Hd' Hl']. split; congruence.
Qed.

Lemma fs_only_try {A} (m : M A) (h : exn → M A) :
  fs_only m → (∀ e, fs_only (h e)) → fs_only (try_except m h).
Proof.
  intros Hm Hh w. unfold try_except. destruct (Hm w) as [Hd Hl].
  destruct (m w) as [w' [a | e]]; cbn [fst] in *; [auto |].
  destruct (Hh e w') as [Hd' Hl']. split; congruence.
Qed.

Lemma fs_only_path_exists (path : string) : fs_only (path_exists path).
Proof. intros w. auto. Qed.

Lemma fs_only_read_text (path : string) : fs_only (read_text path).
Proof. intros w. unfold read_text. destruct (fs_read _ _); auto. Qed.

Lemma fs_only_write_text (path content : string) : fs_only (write_text path content).
Proof. intros w. auto. Qed.

Lemma fs_only_append_text (path content : string) : fs_only (append_text path content).
Proof. intros w. auto. Qed.

Lemma fs_only_on_fs {A} (f : FS → FS * result A) : fs_only (on_fs f).
Proof. intros w. unfold on_fs. destruct (f (w_fs w)). auto. Qed.

Lemma fs_only_copy_file (src dst : string) : fs_only (copy_file src dst).
Proof.
  apply fs_only_bind; [apply fs_only_read_text | intros; apply fs_only_write_text].
Qed.

Ltac fs_only_step :=
  first
    [ apply fs_only_ret | apply fs_only_raise | apply fs_only_lift
    | apply fs_only_path_exists | apply fs_only_read_text
    | apply fs_only_write_text | apply fs_only_append_text
    | apply fs_only_on_fs | apply fs_only_copy_file
    | apply fs_only_bind | apply fs_only_try
    | match goal with
      | |- fs_only (match ?x with _ => _ end) => destruct x
      | |- fs_only (if ?b then _ else _) => destruct b
      end
    | progress intros ].

Ltac fs_only_tac := repeat fs_only_step.

Lemma fs_only_matcher (m : matcher) (file_name error_msg : string) :
  fs_only (run_matcher m file_name error_msg).
Proof.
  destruct m; cbn [run_matcher];
    unfold _quick_fix_missing_attribute, _quick_fix_assertion_mismatch,
      _quick_fix_import_error, _quick_fix_type_error, _quick_fix_indentation;
    fs_only_tac.
Qed.

Lemma fs_only_apply_patch_set (file_path : string) (patch_obj : option PatchSet) :
  fs_only (apply_patch_set file_path patch_obj).
Proof. unfold apply_patch_set. fs_only_tac. Qed.

Lemma fs_only_learned_payload (file_path known_fix : string) :
  fs_only (apply_learned_payload file_path known_fix).
Proof.
  unfold apply_learned_payload.
  repeat first [ apply fs_only_apply_patch_set | fs_only_step ].
Qed.

Lemma fs_only_learned_tier (failure : FailureRecord) :
  fs_only (_apply_adaptive_learning_fix failure).
Proof.
  unfold _apply_adaptive_learning_fix.
  apply fs_only_bind; [apply fs_only_lift |]. intros file_path.
  apply fs_only_bind; [apply fs_only_path_exists |]. intros found.
  destruct (negb found); [apply fs_only_ret |].
  intros w.
  destruct (_search_learned_fix (w_db w) (f_error failure)) as [known |];
    [| auto].
  destruct (String.eqb known EmptyString); [auto |].
  apply fs_only_try; [apply fs_only_learned_payload |].
  intros e. fs_only_tac.
Qed.

(** ** Steps that end without an exception *)

Lemma guarded_never_raises (path : string) (m : M bool) :
  never_raises
    (bind (path_exists path)
       (λ found, if negb found then ret false
                 else try_except m (λ _, ret false))).
Proof.
  intros w. unfold bind, path_exists, try_except, ret.
  destruct (negb (fs_exists (w_fs w) path)); [eauto |].
  destruct (m w) as [w' [b | e]]; eauto.
Qed.

Lemma matcher_never_raises (m : matcher) (file_name error_msg : string) :
  never_raises (run_matcher m file_name error_msg).
Proof.
  destruct m; cbn [run_matcher];
    unfold _quick_fix_missing_attribute, _quick_fix_assertion_mismatch,
      _quick_fix_import_error, _quick_fix_type_error, _quick_fix_indentation;
    repeat match goal with
           | |- never_raises (match ?x with _ => _ end) => destruct x
           end;
    first [ apply guarded_never_raises | intros w; unfold ret; eauto ].
Qed.

(** The chain of tests of [_apply_known_pattern] is the priority table. *)
Lemma known_pattern_classify (failure : FailureRecord) :
  _apply_known_pattern failure
  = match classify (f_error failure) with
    | Some m => run_matcher m (f_file failure) (f_error failure)
    | None => ret false
    end.
Proof.
  unfold _apply_known_pattern, classify, pattern_classes.
  cbn [find forallb snd fst option_map].
  destruct (str_in "AttributeError" (f_error failure)); [reflexivity |].
  destruct (str_in "AssertionError" (f_error failure)); [reflexivity |].
  destruct (str_in "ImportError" (f_error failure)); [reflexivity |].
  destruct (str_in "TypeError" (f_error failure));
    destruct (str_in "missing" (f_error failure));
    destruct (str_in "required positional argument" (f_error failure));
    cbn [andb option_map fst]; try reflexivity;
    destruct (str_in "IndentationError" (f_error failure)); reflexivity.
Qed.

(** C4. Dispatch runs the pattern tier first, on the one class that
    [classify] selects, and returns at once when it succeeds; only when
    it fails does the learned tier run, on the files the pattern tier
    left, and only when that fails too does the AI tier run.  The first
    two tiers touch nothing but files: no call to the AI backend, no
    change to the store. *)
Theorem dispatch_tier_order (failure : FailureRecord) (w : World) :
  _apply_known_pattern failure
  = match classify (f_error failure) with
    | Some m => run_matcher m (f_file failure) (f_error failure)
    | None => ret false
    end
  ∧ ∃ w1 b1,
      _apply_known_pattern failure w = (w1, Ret b1)
      ∧ w_db w1 = w_db w ∧ w_log w1 = w_log w
      ∧ if b1 then apply_fix failure w = (w1, Ret true)
        else
          ∃ w2 r2,
            _apply_adaptive_learning_fix failure w1 = (w2, r2)
            ∧ w_db w2 = w_db w ∧ w_log w2 = w_log w
            ∧ match r2 with
              | Ret true => apply_fix failure w = (w2, Ret true)
              | Ret false =>
                  ∃ w3 r3,
                    _apply_ollama_deepseek_fix failure w2 = (w3, r3)
                    ∧ apply_fix failure w
                      = match r3 with
                        | Ret true =>
                            (fst (_store_learned_fix (f_error failure)
                                    "LLM-based patch (not real code)" w3),
                             Ret true)
                        | _ => (w3, r3)
                        end
              | Raise e => apply_fix failure w = (w2, Raise e)
              end.
Proof.
  split; [apply known_pattern_classify |].
  assert (Hnr : never_raises (_apply_known_pattern failure)).
  { rewrite known_pattern_classify.
    destruct (classify (f_error failure));
      [apply matcher_never_raises | intros w0; unfold ret; eauto]. }
  assert (Hfs : fs_only (_apply_known_pattern failure)).
  { rewrite known_pattern_classify.
    destruct (classify (f_error failure));
      [apply fs_only_matcher | apply fs_only_ret]. }
  destruct (Hnr w) as (w1 & b1 & H1). destruct (Hfs w) as [Hd1 Hl1].
  rewrite H1 in Hd1, Hl1. cbn [fst] in Hd1, Hl1.
  exists w1, b1. repeat split; try assumption.
  unfold apply_fix, bind. rewrite H1.
  destruct b1; [reflexivity |].
  destruct (fs_only_learned_tier failure w1) as [Hd2 Hl2].
  destruct (_apply_adaptive_learning_fix failure w1) as [w2 r2] eqn:H2.
  cbn [fst] in Hd2, Hl2.
  exists w2, r2. repeat split; try congruence.
  destruct r2 as [[|] | e]; try reflexivity.
  destruct (_apply_ollama_deepseek_fix failure w2) as [w3 r3] eqn:H3.
  exists w3, r3. split; [reflexivity |].
  destruct r3 as [[|] | e]; reflexivity.
Qed.

(** ** Steps that run no test *)

Lemma test_runs_emit (w : World) (e : event) :
  test_runs (emit w e) = test_runs w + (if is_test_run e then 1 else 0).
Proof.
  unfold test_runs, emit. cbn [w_log]. rewrite filter_app, length_app.
  f_equal. destruct e; reflexivity.
Qed.

Lemma no_test_run_fs_only {A} (m : M A) : fs_only m → no_test_run m.
Proof. intros Hm w. unfold test_runs. now destruct (Hm w) as [_ ->]. Qed.

Lemma no_test_run_bind {A B} (m : M A) (k : A → M B) :
  no_test_run m → (∀ a, no_test_run (k a)) → no_test_run (bind m k).
Proof.
  intros Hm Hk w. unfold bind. specialize (Hm w).
  destruct (m w) as [w' [a | e]]; cbn [fst] in *; [| assumption].
  rewrite (Hk a w'). assumption.
Qed.

Lemma no_test_run_try {A} (m : M A) (h : exn → M A) :
  no_test_run m → (∀ e, no_test_run (h e)) → no_test_run (try_except m h).
Proof.
  intros Hm Hh w. unfold try_except. specialize (Hm w).
  destruct (m w) as [w' [a | e]]; cbn [fst] in *; [assumption |].
  rewrite (Hh e w'). assumption.
Qed.

Lemma no_test_run_log (e : event) :
  is_test_run e = false → no_test_run (log_event e).
Proof.
  intros He w. unfold log_event. cbn [fst]. rewrite test_runs_emit, He. lia.
Qed.

Lemma no_test_run_store (error_msg fix_str : string) :
  no_test_run (_store_learned_fix error_msg fix_str).
Proof. intros w. reflexivity. Qed.

Lemma no_test_run_ai_tier (failure : FailureRecord) :
  no_test_run (_apply_ollama_deepseek_fix failure).
Proof.
  unfold _apply_ollama_deepseek_fix.
  apply no_test_run_bind; [apply no_test_run_fs_only, fs_only_path_exists |].
  intros found. destruct (negb found); [apply no_test_run_fs_only, fs_only_ret |].
  apply no_test_run_try; [| intros; apply no_test_run_fs_only, fs_only_ret].
  apply no_test_run_bind; [apply no_test_run_fs_only, fs_only_read_text |].
  intros content.
  apply no_test_run_bind; [apply no_test_run_fs_only, fs_only_lift |].
  intros chunks.
  apply no_test_run_bind; [now apply no_test_run_log |]. intros _.
  apply no_test_run_fs_only.
  apply fs_only_bind; [apply fs_only_lift |]. intros suggestion.
  apply fs_only_bind; [apply fs_only_lift |]. intros patch_obj.
  destruct patch_obj; [apply fs_only_apply_patch_set | apply fs_only_raise].
Qed.

Lemma no_test_run_apply_fix (failure : FailureRecord) :
  no_test_run (apply_fix failure).
Proof.
  unfold apply_fix.
  apply no_test_run_bind.
  { apply no_test_run_fs_only. rewrite known_pattern_classify.
    destruct (classify (f_error failure));
      [apply fs_only_matcher | apply fs_only_ret]. }
  intros [|]; [apply no_test_run_fs_only, fs_only_ret |].
  apply no_test_run_bind; [apply no_test_run_fs_only, fs_only_learned_tier |].
  intros [|]; [apply no_test_run_fs_only, fs_only_ret |].
  apply no_test_run_bind; [apply no_test_run_ai_tier |].
  intros success.
  apply no_test_run_bind; [| intros; apply no_test_run_fs_only, fs_only_ret].
  destruct success; [apply no_test_run_store | apply no_test_run_fs_only, fs_only_ret].
Qed.

Lemma no_test_run_rollback (files : list string) :
  no_test_run (rollback_changes files).
Proof.
  destruct files as [|f fs]; [apply no_test_run_fs_only, fs_only_ret |].
  cbn [rollback_changes].
  apply no_test_run_bind; [now apply no_test_run_log |].
  intros _. apply no_test_run_fs_only, fs_only_on_fs.
Qed.

(** One pass over the failures runs no test, and the only report it
    returns is that a file could not be fixed. *)
Lemma fix_failures_pass (failures : list FailureRecord) :
  ∀ modified_files w w' r,
    fix_failures failures modified_files w = (w', r) →
    test_runs w' = test_runs w
    ∧ ∀ report, r = Ret (inr report) →
        ∃ failure, failure ∈ failures
                   ∧ report = report_could_not_fix (f_file failure).
Proof.
  induction failures as [|failure rest IH]; intros modified_files w w' r.
  - cbn [fix_failures]. unfold ret. intros [= <- <-]. split; [reflexivity |].
    intros report [=].
  - cbn [fix_failures]. unfold bind at 1.
    pose proof (no_test_run_apply_fix failure w) as Hruns.
    destruct (apply_fix failure w) as [w1 [fix_ok | e]]; cbn [fst] in Hruns.
    2: { intros [= <- <-]. split; [assumption | intros report [=]]. }
    destruct (fix_ok && negb (in_list (f_file failure) modified_files)).
    + intros Hrest. apply IH in Hrest as [Hr Hrep]. split; [congruence |].
      intros report Heq. destruct (Hrep report Heq) as (f & Hin & ->).
      exists f. split; [now right | reflexivity].
    + unfold bind. pose proof (no_test_run_rollback modified_files w1) as Hrb.
      destruct (rollback_changes modified_files w1) as [w2 [[] | e]];
        cbn [fst] in Hrb; unfold ret; intros [= <- <-].
      * split; [congruence |]. intros report [= <-].
        exists failure. split; [now left | reflexivity].
      * split; [congruence |]. intros report [=].
Qed.




End AgentFacts.

(** * Worked scenarios on the test bench *)



(** C3. Two failing tests of the same file, each fixed by the indentation
    tier: the second dispatch succeeds, yet the loop takes the failure
    branch because the file is already in [modified_files], rolls the file
    back and ends the cycle. *)
Theorem retry_tests_rolls_back_after_successful_fix :
  let w0 := @init_world (bench sc_two_tabs) fs_tabbed in
  let first := @apply_fix (bench sc_two_tabs) tab_a (emit w0 EvTestRun) in
  let second := @apply_fix (bench sc_two_tabs) tab_b (fst first) in
  let r := @retry_tests (bench sc_two_tabs) 3 w0 in
  parse_test_failures two_tabs_output = [tab_a; tab_b]
  ∧ snd first = Ret true
  ∧ snd second = Ret true
  ∧ snd r = Ret (report_could_not_fix "t.py")
  ∧ w_log (fst r) = [EvTestRun; EvRollback ["t.py"]].
Proof. cbn zeta. repeat split; vm_compute; reflexivity. Qed.

(** C1. After the AI tier has fixed a failure, the full error text is a key
    of the store and the store is on disk; but the payload stored with it
    is a text the learned tier does not recognise, so that the next
    dispatch of the same failure fails at the learned tier and calls the AI
    backend again. *)
Theorem learned_payload_is_not_reused :
  let w0 := @init_world (bench sc_ai_ok) fs_one_file in
  let first := @apply_fix (bench sc_ai_ok) boom w0 in
  let second := @apply_fix (bench sc_ai_ok) boom (fst first) in
  snd first = Ret true
  ∧ w_db (fst first) = [(f_error boom, "LLM-based patch (not real code)")]
  ∧ @_load_learning_db (bench sc_ai_ok) (w_fs (fst first)) = w_db (fst first)
  ∧ llm_calls (fst first) = 1
  ∧ snd (@_apply_adaptive_learning_fix (bench sc_ai_ok) boom (fst first)) = Ret false
  ∧ snd second = Ret true
  ∧ llm_calls (fst second) = 2.
Proof. cbn zeta. repeat split; vm_compute; reflexivity. Qed.

(** C2. The AI tier applies its patch with no backup: when the patch stops
    half-way with an exception, the tier reports failure and the target
    keeps the half-written text, with no [.backup] beside it.  The
    learned tier, given the same patch, copies the target first and puts
    it back. *)
Theorem ai_tier_mutation_is_unguarded :
  let w0 := @init_world (bench sc_ai_breaks) fs_one_file in
  let r := @apply_fix (bench sc_ai_breaks) boom w0 in
  let wl := mkWorld fs_one_file [("boom", "diff --git a/t.py b/t.py")] [] in
  let rl := @_apply_adaptive_learning_fix (bench sc_ai_breaks) boom wl in
  w_fs w0 !! t_py = Some "x = 1"
  ∧ snd r = Ret false
  ∧ w_fs (fst r) !! t_py = Some "<<partial>>"
  ∧ w_fs (fst r) !! (t_py +:+ ".backup") = None
  ∧ snd rl = Ret false
  ∧ w_fs (fst rl) !! t_py = Some "x = 1"
  ∧ w_fs (fst rl) !! (t_py +:+ ".backup") = Some "x = 1".
Proof. cbn zeta. repeat split; vm_compute; reflexivity. Qed.

(** A store of one learned fix, saved and loaded again. *)
Lemma learning_db_round_trip_witness :
  let w := mkWorld fs_one_file [("ValueError: boom", "def helper(): pass")] [] in
  NoDup (PyDict.keys (w_db w))
  ∧ (∃ w', @_save_learning_db (bench sc_ai_ok) w = (w', Ret tt)
           ∧ @_load_learning_db (bench sc_ai_ok) (w_fs w') = w_db w).
Proof.
  cbn zeta.
  assert (Hkeys : NoDup (PyDict.keys
                           (w_db (mkWorld fs_one_file
                                    [("ValueError: boom", "def helper(): pass")] []))))
    by apply NoDup_singleton.
  split; [exact Hkeys |].
  exact (proj1 (@learning_db_round_trip (bench sc_ai_ok) _ Hkeys)).
Defined.

Lemma one_file_mentions_no_import (line : string) :
  line ∈ readlines "x = 1" →
  ¬ (contains "import" line ∧ contains "foo" line).
Proof.
  change (readlines "x = 1") with ["x = 1"].
  intros Hl%list_elem_of_singleton [Hi _]. subst line.
  apply str_in_contains in Hi. vm_compute in Hi. discriminate Hi.
Qed.

(** The import fix on [ImportError: No module named 'foo'] and a file that
    holds neither [import] nor [foo]. *)
Lemma quick_fix_import_error_inserts_witness :
  let w := @init_world (bench sc_ai_ok) fs_one_file in
  Re.search no_module_pattern "ImportError: No module named 'foo'"
  = Some ("ImportError: ", ["foo"], EmptyString)
  ∧ @_quick_fix_import_error (bench sc_ai_ok) "t.py"
      "ImportError: No module named 'foo'" w
    = (with_fs w (@fs_write (bench sc_ai_ok) (w_fs w) (test_path "t.py")
                    ("import foo" +:+ String LF "x = 1")),
       Ret true).
Proof.
  cbn zeta.
  pose proof (@quick_fix_import_error_inserts (bench sc_ai_ok)
                "t.py" "ImportError: " "foo" EmptyString "x = 1"
                (@init_world (bench sc_ai_ok) fs_one_file)
                ltac:(discriminate) eq_refl eq_refl eq_refl) as (Hs & Hins & _).
  split; [exact Hs |]. exact (proj1 (Hins one_file_mentions_no_import)).
Defined.

(** C9, the claim as stated fails.  The file imports [foobar], or speaks
    of [foo] in a comment that holds the word [important]: no line is an
    import of [foo], and yet the matcher inserts nothing and reports
    failure. *)
Lemma import_fix_refuses_without_import :
  let error_msg := "ModuleNotFoundError: No module named 'foo'" in
  let w := @init_world (bench sc_ai_ok) fs_foobar in
  let w' := @init_world (bench sc_ai_ok) fs_important in
  Re.search no_module_pattern error_msg
  = Some ("ModuleNotFoundError: ", ["foo"], EmptyString)
  ∧ existsb (is_import_of "foo") (readlines foobar_text) = false
  ∧ @_quick_fix_import_error (bench sc_ai_ok) "t.py" error_msg w
    = (w, Ret false)
  ∧ existsb (is_import_of "foo") (readlines important_text) = false
  ∧ @_quick_fix_import_error (bench sc_ai_ok) "t.py" error_msg w'
    = (w', Ret false).
Proof.
  cbn zeta.
  split; [vm_compute; reflexivity |]. split; [vm_compute; reflexivity |].
  split; [vm_compute; reflexivity |]. split; vm_compute; reflexivity.
Qed.




(** * Further properties of the agent

    The content of a file is the text that reading it in text mode gives,
    with line feeds as its line ends. *)

Module ParserMore.
Import Re ReFacts ParserFacts.

(** The records of an output are those of its lines, in order. *)
Lemma parse_by_line (test_output : string) :
  parse_test_failures test_output
  = omap failed_line (split_char LF test_output).
Proof.
  destruct (split_char_join test_output) as (Hjoin & Hall & Hne).
  unfold parse_test_failures, finditer.
  rewrite <- Hjoin at 2.
  rewrite (finditer_lines _ Hne Hall); [| rewrite Hjoin; lia].
  apply omap_line_record.
Qed.

Lemma split_char_app_LF (a b : string) :
  split_char LF (a +:+ String LF b) = split_char LF a ++ split_char LF b.
Proof.
  induction a as [|c a IH]; [reflexivity |].
  cbn [String.append split_char]. rewrite IH.
  destruct (Ascii.eqb c LF); [reflexivity |].
  destruct (split_char_join a) as (_ & _ & Hne).
  destruct (split_char LF a) as [|l ls]; [congruence | reflexivity].
Qed.

Lemma omap_app_eq {A B} (f : A → option B) (l1 l2 : list A) :
  omap f (l1 ++ l2) = omap f l1 ++ omap f l2.
Proof.
  induction l1 as [|x l1 IH]; [reflexivity |].
  cbn [app]. rewrite !omap_cons_eq, IH. now destruct (f x).
Qed.

Lemma omap_none {A B} (f : A → option B) (l : list A) :
  (∀ x, x ∈ l → f x = None) → omap f l = [].
Proof.
  induction l as [|x l IH]; intros Hl; [reflexivity |].
  rewrite omap_cons_eq, (Hl x); [| left].
  apply IH. intros y Hy. apply Hl. now right.
Qed.

(** An output none of whose lines is well formed gives no record. *)
Lemma parse_nothing (test_output : string) :
  (∀ line, line ∈ split_char LF test_output → ¬ well_formed_line line) →
  parse_test_failures test_output = [].
Proof.
  intros Hnone. rewrite parse_by_line. apply omap_none. intros line Hin.
  destruct (failed_line line) as [r |] eqn:Hr; [| reflexivity].
  exfalso. apply (Hnone line Hin).
  destruct (split_char_join test_output) as (_ & Hall & _).
  rewrite Forall_forall in Hall.
  destruct (failed_line_sound line r (Hall _ Hin) Hr) as (? & ? & ? & pre & ?).
  exists pre, (f_file r), (f_test r), (f_error r). auto.
Qed.

End ParserMore.

(** X13. Parsing two outputs joined by a line feed gives the records of
    the first followed by those of the second: no record spans the join
    and none is lost. *)
Theorem parse_test_failures_app (a b : string) :
  parse_test_failures (a +:+ String LF b)
  = parse_test_failures a ++ parse_test_failures b.
Proof.
  rewrite !ParserMore.parse_by_line, ParserMore.split_char_app_LF.
  apply ParserMore.omap_app_eq.
Qed.

Section MoreAgentFacts.
Context `{Collaborators}.

Lemma fs_only_known_pattern (failure : FailureRecord) :
  fs_only (_apply_known_pattern failure).
Proof.
  rewrite known_pattern_classify.
  destruct (classify (f_error failure));
    [apply fs_only_matcher | apply fs_only_ret].
Qed.

Lemma retry_loop_bound (attempts : nat) :
  ∀ modified_files w,
    ∃ k, k ≤ attempts
         ∧ test_runs (fst (retry_loop attempts modified_files w))
           = test_runs w + k.
Proof.
  induction attempts as [|n IH]; intros modified_files w.
  - exists 0. cbn [retry_loop]. unfold ret. cbn [fst]. lia.
  - cbn [retry_loop]. unfold bind at 1, run_tests.
    destruct (parse_test_failures (run_pytest (w_fs w))) as [|failure rest].
    + exists 1. unfold bind, push_to_github, log_event, ret. cbn [fst].
      rewrite !test_runs_emit. cbn [is_test_run]. lia.
    + unfold bind at 1.
      destruct (fix_failures (failure :: rest) modified_files (emit w EvTestRun))
        as [w1 res] eqn:Hpass.
      apply fix_failures_pass in Hpass as [Hruns _].
      rewrite test_runs_emit in Hruns. cbn [is_test_run] in Hruns.
      destruct res as [[modified' | report] | e].
      * destruct (IH modified' w1) as (k & Hk & Hr). exists (S k).
        rewrite Hr. lia.
      * exists 1. unfold ret. cbn [fst]. lia.
      * exists 1. cbn [fst]. lia.
Qed.

(** X1. Whatever the tests print and whatever the tiers do, a cycle runs
    the test suite at most [max_retries] times, also when it ends with an
    exception; [automate_debugging] runs it at most three times. *)
Theorem retry_tests_runs_bounded (max_retries : Z) (w : World) :
  test_runs (fst (retry_tests max_retries w)) ≤ test_runs w + Z.to_nat max_retries
  ∧ test_runs w ≤ test_runs (fst (retry_tests max_retries w))
  ∧ test_runs (fst (automate_debugging w)) ≤ test_runs w + 3.
Proof.
  unfold automate_debugging, retry_tests.
  destruct (retry_loop_bound (Z.to_nat max_retries) [] w) as (k & Hk & ->).
  destruct (retry_loop_bound (Z.to_nat 3) [] w) as (k3 & Hk3 & ->).
  change (Z.to_nat 3) with 3 in Hk3. lia.
Qed.

(** X2. When no line of the first test run has the form [FAILED
    <file>::<test> - <reason>], the cycle ends at once with the success
    report: one test run, one push, and neither the files nor the store
    are touched. *)
Theorem retry_tests_all_pass (max_retries : Z) (w : World)
    (Hpos : (0 < max_retries)%Z)
    (Hclean : ∀ line, line ∈ split_char LF (run_pytest (w_fs w)) →
                      ¬ well_formed_line line) :
  retry_tests max_retries w
  = (emit (emit w EvTestRun) (EvPush "All tests passed! Automated fix commits."),
     Ret report_success).
Proof.
  unfold retry_tests. destruct (Z.to_nat max_retries) as [|n] eqn:Hn; [lia |].
  cbn [retry_loop]. unfold bind at 1, run_tests.
  rewrite (ParserMore.parse_nothing _ Hclean). reflexivity.
Qed.

(** X3. A pass over the failures runs to its end only when every failure
    lies in a file of its own that no earlier pass of the cycle has fixed;
    the files are then recorded in the order of the failures. *)
Theorem fix_failures_completes (failures : list FailureRecord)
    (modified_files modified_files' : list string) (w w' : World)
    (Hpass : fix_failures failures modified_files w
             = (w', Ret (inl modified_files'))) :
  modified_files' = modified_files ++ map f_file failures
  ∧ NoDup (map f_file failures)
  ∧ ∀ failure, failure ∈ failures → f_file failure ∉ modified_files.
Proof.
  revert modified_files w Hpass.
  induction failures as [|failure rest IH]; intros modified_files w.
  - cbn [fix_failures]. unfold ret. intros [= _ <-].
    rewrite app_nil_r. repeat split; [constructor |].
    intros f Hf. now apply elem_of_nil in Hf.
  - cbn [fix_failures]. unfold bind at 1.
    destruct (apply_fix failure w) as [w1 [fix_ok | e]]; [| intros [=]].
    destruct (fix_ok && negb (in_list (f_file failure) modified_files)) eqn:Hok.
    2: { unfold bind. destruct (rollback_changes modified_files w1) as [w2 [[] | e]];
           unfold ret; intros [=]. }
    apply andb_prop in Hok as [_ Hnew]. apply negb_true_iff in Hnew.
    assert (Hnotin : f_file failure ∉ modified_files).
    { intros Hin. unfold in_list in Hnew.
      assert (existsb (String.eqb (f_file failure)) modified_files = true);
        [| congruence].
      apply existsb_exists. exists (f_file failure).
      split; [now apply list_elem_of_In | apply String.eqb_refl]. }
    intros Hrest. apply IH in Hrest as (-> & Hnd & Hfresh).
    cbn [map]. rewrite <- app_assoc. split; [reflexivity |]. split.
    + apply NoDup_cons. split; [| assumption].
      intros Hin. apply list_elem_of_fmap in Hin as (f & Hf & Hin).
      apply (Hfresh f Hin). apply elem_of_app. right. rewrite Hf. left.
    + intros f Hf. apply elem_of_cons in Hf as [-> | Hf]; [assumption |].
      intros Hin. apply (Hfresh f Hf). apply elem_of_app. now left.
Qed.

Lemma try_ret_fst {A} (m : M A) (a : A) (w : World) :
  fst (try_except m (λ _, ret a) w) = fst (m w).
Proof. unfold try_except, ret. now destruct (m w) as [w' [x | e]]. Qed.

Ltac crunch :=
  repeat (cbn beta iota zeta;
          cbn [negb fst snd w_fs w_db w_log with_fs with_db emit];
          try match goal with
              | H : ?x = _ |- context [?x] => rewrite H
              end).

(** The AI tier leaves the store alone, never raises, and calls the
    backend at most once: always when it succeeds. *)
Lemma ai_tier_footprint (failure : FailureRecord) (w : World) :
  ∃ w' b,
    _apply_ollama_deepseek_fix failure w = (w', Ret b)
    ∧ w_db w' = w_db w
    ∧ ((w_log w' = w_log w ∧ b = false)
       ∨ ∃ chunks, w_log w' = w_log w ++ [EvLLM chunks (f_error failure)]).
Proof.
  unfold _apply_ollama_deepseek_fix, apply_patch_set, bind, path_exists,
    fs_exists, try_except, read_text, lift, log_event, on_fs, ret, raise.
  destruct (fs_read (w_fs w) (test_path (f_file failure))) as [content |] eqn:Hf;
    crunch; [| eauto 10].
  destruct (deepseek_chunk_code content) as [chunks | e] eqn:Hc;
    crunch; [| eauto 10].
  destruct (run_deepseek_ollama_analysis chunks (f_error failure))
    as [suggestion | e] eqn:Hs; crunch; [| eauto 10].
  destruct (parse_diff_suggestion suggestion) as [[p |] | e] eqn:Hp;
    crunch; [| eauto 10 | eauto 10].
  destruct (Nat.eqb (patch_len p) 0); crunch; [eauto 10 |].
  destruct (apply_diff_patch [test_path (f_file failure)] p (w_fs w))
    as [fs' [[] | e]] eqn:Ha; crunch; eauto 10.
Qed.

Lemma apply_fix_cases (failure : FailureRecord) (w : World) :
  ∃ w' r,
    apply_fix failure w = (w', r)
    ∧ ((w_log w' = w_log w ∧ w_db w' = w_db w)
       ∨ ∃ chunks,
           w_log w' = w_log w ++ [EvLLM chunks (f_error failure)]
           ∧ (w_db w' = w_db w
              ∨ w_db w' = PyDict.set (f_error failure)
                            "LLM-based patch (not real code)" (w_db w))).
Proof.
  unfold apply_fix. unfold bind at 1.
  destruct (fs_only_known_pattern failure w) as [Hd1 Hl1].
  destruct (_apply_known_pattern failure w) as [w1 [[|] | e]];
    cbn [fst] in *; try (eexists _, _; split; [reflexivity |]; left; split; assumption).
  unfold bind at 1.
  destruct (fs_only_learned_tier failure w1) as [Hd2 Hl2].
  destruct (_apply_adaptive_learning_fix failure w1) as [w2 [[|] | e]];
    cbn [fst] in *;
    try (eexists _, _; split; [reflexivity |]; left; split; congruence).
  unfold bind at 1.
  destruct (ai_tier_footprint failure w2) as (w3 & b & Hai & Hd3 & Hl3).
  rewrite Hai. destruct b.
  - destruct Hl3 as [[_ [=]] | [chunks Hl3]].
    eexists _, _. split; [reflexivity |].
    right. exists chunks. cbn [w_log w_db with_db with_fs].
    split; [congruence |]. right. congruence.
  - eexists _, _. split; [reflexivity |].
    destruct Hl3 as [[Hl3 _] | [chunks Hl3]];
      [left; split; congruence
      | right; exists chunks; split; [congruence | left; congruence]].
Qed.

(** X4. One dispatch contacts no collaborator but the AI backend, and that
    one at most once; it changes the store only by recording its fixed
    payload under the error text, and only after a call to the backend. *)
Theorem apply_fix_footprint (failure : FailureRecord) (w : World) :
  let w' := fst (apply_fix failure w) in
  (w_log w' = w_log w ∧ w_db w' = w_db w)
  ∨ ∃ chunks,
      w_log w' = w_log w ++ [EvLLM chunks (f_error failure)]
      ∧ (w_db w' = w_db w
         ∨ w_db w' = PyDict.set (f_error failure)
                       "LLM-based patch (not real code)" (w_db w)).
Proof.
  cbn zeta. destruct (apply_fix_cases failure w) as (w' & r & -> & Hcases).
  exact Hcases.
Qed.

Lemma str_in_refl (s : string) : str_in s s = true.
Proof.
  pose proof (str_in_here s EmptyString) as Hs. now rewrite sapp_nil_r in Hs.
Qed.

(** X5. The lookup returns the payload of the first key, in insertion
    order, that occurs in the error text, and nothing exactly when no key
    occurs in it. *)
Theorem search_learned_fix_first_match (db : list (string * string))
    (error_msg : string) :
  match _search_learned_fix db error_msg with
  | Some fix_str =>
      ∃ before known_err after,
        db = before ++ (known_err, fix_str) :: after
        ∧ str_in known_err error_msg = true
        ∧ ∀ k, k ∈ PyDict.keys before → str_in k error_msg = false
  | None => ∀ k, k ∈ PyDict.keys db → str_in k error_msg = false
  end.
Proof.
  induction db as [|[k v] db IH]; cbn [_search_learned_fix].
  - intros k Hk. now apply elem_of_nil in Hk.
  - destruct (str_in k error_msg) eqn:Hk.
    + exists [], k, db. repeat split; [assumption |].
      intros k' Hk'. now apply elem_of_nil in Hk'.
    + destruct (_search_learned_fix db error_msg) as [fix_str |].
      * destruct IH as (before & k0 & after & -> & Hin & Hbefore).
        exists ((k, v) :: before), k0, after. repeat split; [assumption |].
        intros k' Hk'. cbn in Hk'. apply elem_of_cons in Hk' as [-> | Hk'];
          [assumption | now apply Hbefore].
      * intros k' Hk'. cbn in Hk'. apply elem_of_cons in Hk' as [-> | Hk'];
          [assumption | now apply IH].
Qed.

Lemma search_after_set (db : list (string * string)) (e v msg : string) :
  str_in e msg = true →
  (∀ k, k ∈ PyDict.keys db → k ≠ e → str_in k msg = false) →
  _search_learned_fix (PyDict.set e v db) msg = Some v.
Proof.
  intros He. induction db as [|[k v'] db IH]; intros Hothers.
  - cbn. now rewrite He.
  - cbn [PyDict.set]. destruct (String.eqb_spec k e) as [-> | Hne].
    + cbn [_search_learned_fix]. now rewrite He.
    + cbn [_search_learned_fix]. rewrite (Hothers k); [| now left | assumption].
      apply IH. intros k' Hk'. apply Hothers. now right.
Qed.

(** X6. A fix stored under an error text is what the lookup returns for
    every later error text that contains the stored one, and for the
    stored text itself, as long as no other key of the store occurs in
    that text. *)
Theorem store_then_search (error_msg fix_str later_msg : string) (w : World)
    (Hin : str_in error_msg later_msg = true)
    (Hothers : ∀ k, k ∈ PyDict.keys (w_db w) → k ≠ error_msg →
                    str_in k later_msg = false) :
  let w' := fst (_store_learned_fix error_msg fix_str w) in
  _search_learned_fix (w_db w') later_msg = Some fix_str
  ∧ ((∀ k, k ∈ PyDict.keys (w_db w) → k ≠ error_msg →
           str_in k error_msg = false) →
     _search_learned_fix (w_db w') error_msg = Some fix_str).
Proof.
  cbn zeta. cbn [_store_learned_fix]. unfold bind, _save_learning_db, try_except,
    write_text, ret. cbn [fst w_db with_db with_fs].
  split; [now apply search_after_set |].
  intros Hself. apply search_after_set; [apply str_in_refl | assumption].
Qed.

(** ** Steps that leave a given file alone *)

Lemma fs_read_write_ne (fs : FS) (p q content : string) :
  resolve p ≠ resolve q → fs_read (fs_write fs p content) q = fs_read fs q.
Proof. intros Hne. unfold fs_read, fs_write. now apply lookup_insert_ne. Qed.

Lemma keeps_path_ret {A} (p : string) (a : A) : keeps_path p (ret a).
Proof. intros w. reflexivity. Qed.

Lemma keeps_path_raise {A} (p : string) (e : exn) : keeps_path p (@raise A e).
Proof. intros w. reflexivity. Qed.

Lemma keeps_path_lift {A} (p : string) (r : result A) : keeps_path p (lift r).
Proof. intros w. reflexivity. Qed.

Lemma keeps_path_bind {A B} (p : string) (m : M A) (k : A → M B) :
  keeps_path p m → (∀ a, keeps_path p (k a)) → keeps_path p (bind m k).
Proof.
  intros Hm Hk w. unfold bind. specialize (Hm w).
  destruct (m w) as [w' [a | e]]; cbn [fst] in *; [| assumption].
  now rewrite (Hk a w').
Qed.

Lemma keeps_path_try {A} (p : string) (m : M A) (h : exn → M A) :
  keeps_path p m → (∀ e, keeps_path p (h e)) → keeps_path p (try_except m h).
Proof.
  intros Hm Hh w. unfold try_except. specialize (Hm w).
  destruct (m w) as [w' [a | e]]; cbn [fst] in *; [assumption |].
  now rewrite (Hh e w').
Qed.

Lemma keeps_path_exists (p path : string) : keeps_path p (path_exists path).
Proof. intros w. reflexivity. Qed.

Lemma keeps_path_read (p path : string) : keeps_path p (read_text path).
Proof. intros w. unfold read_text. now destruct (fs_read _ path). Qed.

Lemma keeps_path_write (p path content : string) :
  resolve path ≠ resolve p → keeps_path p (write_text path content).
Proof. intros Hne w. cbn. now apply fs_read_write_ne. Qed.

Lemma keeps_path_append (p path content : string) :
  resolve path ≠ resolve p → keeps_path p (append_text path content).
Proof. intros Hne w. cbn. now apply fs_read_write_ne. Qed.

Ltac keeps_path_step :=
  first
    [ apply keeps_path_ret | apply keeps_path_raise | apply keeps_path_lift
    | apply keeps_path_exists | apply keeps_path_read
    | apply keeps_path_write; assumption
    | apply keeps_path_append; assumption
    | apply keeps_path_bind | apply keeps_path_try
    | match goal with
      | |- keeps_path _ (match ?x with _ => _ end) => destruct x
      | |- keeps_path _ (if ?b then _ else _) => destruct b
      end
    | progress intros ].

Lemma keeps_path_matcher (m : matcher) (file_name error_msg p : string) :
  resolve (test_path file_name) ≠ resolve p →
  keeps_path p (run_matcher m file_name error_msg).
Proof.
  intros Hne.
  destruct m; cbn [run_matcher];
    unfold _quick_fix_missing_attribute, _quick_fix_assertion_mismatch,
      _quick_fix_import_error, _quick_fix_type_error, _quick_fix_indentation;
    repeat keeps_path_step.
Qed.

(** X7. A pattern matcher changes at most its target file: every other
    file, the store and the log of calls to the collaborators stay as they
    were, whatever the error text. *)
Theorem matcher_touches_target_only (m : matcher)
    (file_name error_msg other : string) (w : World)
    (Hother : resolve other ≠ resolve (test_path file_name)) :
  let w' := fst (run_matcher m file_name error_msg w) in
  fs_read (w_fs w') other = fs_read (w_fs w) other
  ∧ w_db w' = w_db w
  ∧ w_log w' = w_log w.
Proof.
  cbn zeta. split.
  - apply keeps_path_matcher. congruence.
  - apply fs_only_matcher.
Qed.

Lemma lazy_stops_at_lit cls (q : ascii) (l : string) (p : Re.pattern)
    (g rest : string) gs r :
  g ≠ EmptyString →
  forall_char (λ c, cls c && negb (Ascii.eqb c q)) g = true →
  Re.match_here (Re.Lit (String q l) :: p) (String q rest) = Some (gs, r) →
  Re.match_here (Re.Lazy1 cls :: Re.Lit (String q l) :: p) (g +:+ String q rest)
  = Some (g :: gs, r).
Proof.
  intros Hg Hcls Hcont. induction g as [|c g IH]; [congruence |].
  cbn [forall_char] in Hcls. apply andb_prop in Hcls as [Hc Hcls].
  apply andb_prop in Hc as [Hc Hq].
  change (String c g +:+ String q rest) with (String c (g +:+ String q rest)).
  rewrite ReFacts.lazy_unfold, Hc.
  destruct g as [|c' g].
  - cbn [String.append]. now rewrite Hcont.
  - rewrite (IH ltac:(discriminate) Hcls).
    cbn [forall_char] in Hcls. apply andb_prop in Hcls as [Hc' _].
    apply andb_prop in Hc' as [_ Hc'2]. apply negb_true_iff in Hc'2.
    cbn [String.append Re.match_here strip_prefix].
    rewrite (Ascii.eqb_sym q c'), Hc'2. reflexivity.
Qed.

(** A search finds nothing before the first character that can start a
    match. *)
Lemma search_after_clean_prefix (q : ascii) (l : string) (p : Re.pattern)
    (pre X : string) gs r :
  forall_char (λ c, negb (Ascii.eqb c q)) pre = true →
  Re.match_here (Re.Lit (String q l) :: p) X = Some (gs, r) →
  Re.search (Re.Lit (String q l) :: p) (pre +:+ X) = Some (pre, gs, r).
Proof.
  intros Hpre HX. apply ReFacts.search_first; [| assumption].
  intros a b -> Hb. destruct b as [|c b]; [congruence |].
  apply ReFacts.forall_char_suffix in Hpre. cbn [forall_char] in Hpre.
  apply andb_prop in Hpre as [Hc _]. apply negb_true_iff in Hc.
  cbn [String.append Re.match_here strip_prefix].
  now rewrite (Ascii.eqb_sym q c), Hc.
Qed.

Lemma lit_step (l : string) (p : Re.pattern) (s : string) :
  Re.match_here (Re.Lit l :: p) (l +:+ s) = Re.match_here p s.
Proof. cbn [Re.match_here]. now rewrite strip_prefix_app. Qed.

Lemma missing_attribute_extracts (pre class_name missing_attr post : string) :
  forall_char (λ c, negb (Ascii.eqb c "'")) pre = true →
  class_name ≠ EmptyString →
  forall_char (λ c, Re.dot c && negb (Ascii.eqb c "'")) class_name = true →
  missing_attr ≠ EmptyString →
  forall_char (λ c, Re.dot c && negb (Ascii.eqb c "'")) missing_attr = true →
  Re.search missing_attribute_pattern
    (pre +:+ "'" +:+ class_name +:+ "' object has no attribute '"
       +:+ missing_attr +:+ "'" +:+ post)
  = Some (pre, [class_name; missing_attr], post).
Proof.
  intros Hpre Hc Hcc Ha Hac. unfold missing_attribute_pattern.
  apply search_after_clean_prefix; [assumption |].
  rewrite lit_step.
  change ("' object has no attribute '" +:+ missing_attr +:+ "'" +:+ post)
    with (String "'" (" object has no attribute '" +:+ missing_attr +:+ "'" +:+ post)).
  apply (lazy_stops_at_lit Re.dot "'" " object has no attribute '");
    [assumption | assumption |].
  change (String "'" (" object has no attribute '" +:+ missing_attr +:+ "'" +:+ post))
    with ("' object has no attribute '" +:+ missing_attr +:+ "'" +:+ post).
  rewrite lit_step.
  exact (ReFacts.lazy_stops_at Re.dot "'" [] missing_attr post [] post Ha Hac eq_refl).
Qed.

Lemma missing_attribute_run (file_name error_msg : string) (w : World) :
  _quick_fix_missing_attribute file_name error_msg w
  = match Re.search missing_attribute_pattern error_msg with
    | Some (_, [class_name; missing_attr], _) =>
        match fs_read (w_fs w) (test_path file_name) with
        | Some text =>
            (with_fs w
               (fs_write (w_fs w) (test_path file_name)
                  (writelines
                     (insert_stub ("class " +:+ class_name)
                        (stub_method missing_attr) (readlines text)))),
             Ret true)
        | None => (w, Ret false)
        end
    | _ => (w, Ret false)
    end.
Proof.
  unfold _quick_fix_missing_attribute.
  destruct (Re.search missing_attribute_pattern error_msg) as [[[pre gs] post] |];
    [| reflexivity].
  destruct gs as [|c [|a [|x gs]]]; try reflexivity.
  unfold bind, path_exists, fs_exists, try_except, read_text, write_text, ret.
  destruct (fs_read (w_fs w) (test_path file_name)) as [text |] eqn:Hf;
    crunch; reflexivity.
Qed.

Lemma writelines_app (l1 l2 : list string) :
  writelines (l1 ++ l2) = writelines l1 +:+ writelines l2.
Proof.
  induction l1 as [|l l1 IH]; [reflexivity |].
  cbn [app writelines]. now rewrite IH, sapp_assoc.
Qed.

Lemma insert_stub_first (marker stub line : string) (before after : list string) :
  existsb (str_in marker) before = false → str_in marker line = true →
  insert_stub marker stub (before ++ line :: after)
  = before ++ line :: stub :: after.
Proof.
  intros Hb Hl. induction before as [|l ls IH]; cbn [app insert_stub].
  - now rewrite Hl.
  - cbn [existsb] in Hb. apply orb_false_elim in Hb as [-> Hb]. now rewrite IH.
Qed.

(** X8. For an error text [... '<Class>' object has no attribute '<attr>'
    ...] and an existing target file, the missing-attribute fix puts the
    stub of [<attr>] right after the first line that holds [class
    <Class>], leaves all other text as it is and reports success; when no
    line holds [class <Class>] it still reports success, with the file
    unchanged. *)
Theorem quick_fix_missing_attribute_inserts
    (file_name pre class_name missing_attr post text : string) (w : World)
    (Hpre : forall_char (λ c, negb (Ascii.eqb c "'")) pre = true)
    (Hclass : class_name ≠ EmptyString)
    (Hclass_name : forall_char (λ c, Re.dot c && negb (Ascii.eqb c "'"))
                     class_name = true)
    (Hattr : missing_attr ≠ EmptyString)
    (Hattr_name : forall_char (λ c, Re.dot c && negb (Ascii.eqb c "'"))
                    missing_attr = true)
    (Hfile : fs_read (w_fs w) (test_path file_name) = Some text) :
  let error_msg :=
    pre +:+ "'" +:+ class_name +:+ "' object has no attribute '"
      +:+ missing_attr +:+ "'" +:+ post in
  let marker := "class " +:+ class_name in
  (∀ before line after,
      readlines text = before ++ line :: after →
      existsb (str_in marker) before = false →
      str_in marker line = true →
      _quick_fix_missing_attribute file_name error_msg w
      = (with_fs w
           (fs_write (w_fs w) (test_path file_name)
              (writelines before +:+ line +:+ stub_method missing_attr
                 +:+ writelines after)),
         Ret true))
  ∧ (existsb (str_in marker) (readlines text) = false →
       _quick_fix_missing_attribute file_name error_msg w = (w, Ret true)).
Proof.
  intros error_msg marker.
  pose proof (missing_attribute_extracts pre class_name missing_attr post
                Hpre Hclass Hclass_name Hattr Hattr_name) as Hs.
  fold error_msg in Hs. rewrite missing_attribute_run, Hs, Hfile.
  split.
  - intros before line after Hlines Hbefore Hline.
    rewrite Hlines, (insert_stub_first _ _ _ _ _ Hbefore Hline).
    rewrite writelines_app. cbn [writelines]. reflexivity.
  - intros Hnone. rewrite (insert_stub_absent _ _ _ Hnone).
    now rewrite writelines_readlines, (fs_write_same _ _ _ Hfile), with_fs_same.
Qed.

Lemma keeps_path_on_fs {A} (p : string) (f : FS → FS * result A) :
  (∀ fs, fs_read (fst (f fs)) p = fs_read fs p) → keeps_path p (on_fs f).
Proof.
  intros Hf w. unfold on_fs. specialize (Hf (w_fs w)).
  destruct (f (w_fs w)) as [fs' r]. exact Hf.
Qed.

(** The learned tier, once its target exists and the store holds a fix for
    the error: the guarded application of the fix. *)
Lemma learned_tier_run (failure : FailureRecord) (w : World)
    (file_path text known_fix : string) :
  learned_fix_path (f_file failure) = Ret file_path →
  fs_read (w_fs w) file_path = Some text →
  _search_learned_fix (w_db w) (f_error failure) = Some known_fix →
  known_fix ≠ EmptyString →
  _apply_adaptive_learning_fix failure w
  = try_except (apply_learned_payload file_path known_fix)
      (λ _, bind (copy_file (file_path +:+ ".backup") file_path)
              (λ _, ret false)) w.
Proof.
  intros Hpath Hf Hsearch Hne.
  unfold _apply_adaptive_learning_fix. rewrite Hpath.
  unfold bind at 1, lift. unfold bind at 1, path_exists, fs_exists.
  rewrite Hf. cbn [negb]. rewrite Hsearch.
  destruct (String.eqb_spec known_fix EmptyString); [contradiction | reflexivity].
Qed.

(** Whatever the fix does, the copy made before it is still there. *)
Lemma payload_keeps_backup (file_path text known_fix : string) (w : World) :
  fs_read (w_fs w) file_path = Some text →
  resolve file_path ≠ resolve (file_path +:+ ".backup") →
  (∀ p fs, fs_read (fst (apply_diff_patch [file_path] p fs))
             (file_path +:+ ".backup")
           = fs_read fs (file_path +:+ ".backup")) →
  (∀ k v fs, fs_read (fst (update_config_key file_path k v fs))
               (file_path +:+ ".backup")
             = fs_read fs (file_path +:+ ".backup")) →
  fs_read (w_fs (fst (apply_learned_payload file_path known_fix w)))
    (file_path +:+ ".backup")
  = Some text.
Proof.
  intros Hf Hne Hpatch Hconfig.
  unfold apply_learned_payload. unfold bind at 1.
  unfold copy_file. unfold bind at 1. unfold read_text at 1. rewrite Hf.
  unfold write_text at 1.
  match goal with |- context [fst (?m ?w0)] =>
    assert (Hk : keeps_path (file_path +:+ ".backup") m);
    [| rewrite (Hk w0); cbn [w_fs with_fs]; apply fs_read_write]
  end.
  assert (Hset : ∀ patch_obj,
             keeps_path (file_path +:+ ".backup")
               (apply_patch_set file_path patch_obj)).
  { intros patch_obj. unfold apply_patch_set.
    destruct patch_obj as [p |]; [| apply keeps_path_ret].
    destruct (Nat.eqb (patch_len p) 0); [apply keeps_path_ret |].
    apply keeps_path_bind; [| intros; apply keeps_path_ret].
    apply keeps_path_on_fs, Hpatch. }
  repeat first
    [ apply Hset
    | apply keeps_path_on_fs, Hconfig
    | keeps_path_step ].
Qed.

(** X9. The learned tier guards its mutation: the target is copied to
    [<target>.backup] first; when applying the stored fix raises, however
    far the mutation went, the target gets its old content back and the
    tier reports failure; in every case the backup is still there
    afterwards, with the old content.  The collaborators are assumed to
    leave the backup file alone. *)
Theorem learned_tier_backup_guard (failure : FailureRecord) (w : World)
    (file_path text known_fix : string)
    (Hpath : learned_fix_path (f_file failure) = Ret file_path)
    (Hfile : fs_read (w_fs w) file_path = Some text)
    (Hsearch : _search_learned_fix (w_db w) (f_error failure) = Some known_fix)
    (Hfix : known_fix ≠ EmptyString)
    (Hdistinct : resolve file_path ≠ resolve (file_path +:+ ".backup"))
    (Hpatch : ∀ p fs, fs_read (fst (apply_diff_patch [file_path] p fs))
                        (file_path +:+ ".backup")
                      = fs_read fs (file_path +:+ ".backup"))
    (Hconfig : ∀ k v fs, fs_read (fst (update_config_key file_path k v fs))
                           (file_path +:+ ".backup")
                         = fs_read fs (file_path +:+ ".backup")) :
  ∃ w' b,
    _apply_adaptive_learning_fix failure w = (w', Ret b)
    ∧ fs_read (w_fs w') (file_path +:+ ".backup") = Some text
    ∧ ((∃ w1 e, apply_learned_payload file_path known_fix w = (w1, Raise e)) →
       b = false ∧ fs_read (w_fs w') file_path = Some text).
Proof.
  rewrite (learned_tier_run failure w file_path text known_fix
             Hpath Hfile Hsearch Hfix).
  pose proof (payload_keeps_backup file_path text known_fix w
                Hfile Hdistinct Hpatch Hconfig) as Hbackup.
  unfold try_except.
  destruct (apply_learned_payload file_path known_fix w) as [w1 [b | e]];
    cbn [fst] in Hbackup.
  - exists w1, b. split; [reflexivity |]. split; [assumption |].
    intros (w2 & e & [=]).
  - unfold bind, copy_file, bind, read_text. rewrite Hbackup.
    unfold write_text, ret.
    eexists _, false. split; [reflexivity |]. cbn [w_fs with_fs].
    split; [| intros _; split; [reflexivity | apply fs_read_write]].
    rewrite fs_read_write_ne; [assumption | assumption].
Qed.

(** X10. A stored fix that is neither JSON nor a diff and holds [def ] or
    [class ] is appended to the target after a line feed, and followed by
    one; the tier reports success, the old content is in the backup, the
    store and the log are untouched. *)
Theorem learned_tier_appends_definition (failure : FailureRecord) (w : World)
    (file_path text known_fix : string)
    (Hpath : learned_fix_path (f_file failure) = Ret file_path)
    (Hfile : fs_read (w_fs w) file_path = Some text)
    (Hsearch : _search_learned_fix (w_db w) (f_error failure) = Some known_fix)
    (Hdistinct : resolve file_path ≠ resolve (file_path +:+ ".backup"))
    (Hjson : startswith known_fix "{" && str_in "type" known_fix = false)
    (Hdiff : str_in "diff --git" known_fix = false)
    (Hdef : str_in "def " known_fix || str_in "class " known_fix = true) :
  ∃ w',
    _apply_adaptive_learning_fix failure w = (w', Ret true)
    ∧ fs_read (w_fs w') file_path
      = Some (text +:+ String LF known_fix +:+ String LF EmptyString)
    ∧ fs_read (w_fs w') (file_path +:+ ".backup") = Some text
    ∧ w_db w' = w_db w ∧ w_log w' = w_log w.
Proof.
  assert (Hfix : known_fix ≠ EmptyString).
  { intros ->. discriminate Hdef. }
  rewrite (learned_tier_run failure w file_path text known_fix
             Hpath Hfile Hsearch Hfix).
  assert (Hread : fs_read (fs_write (w_fs w) (file_path +:+ ".backup") text)
                    file_path = Some text).
  { rewrite fs_read_write_ne; [assumption | congruence]. }
  unfold try_except, apply_learned_payload. rewrite Hjson, Hdiff, Hdef.
  unfold bind, copy_file, bind, read_text, write_text, append_text, ret.
  rewrite Hfile. cbn [w_fs with_fs]. rewrite Hread. cbn [default].
  eexists. split; [reflexivity |]. cbn [w_fs w_db w_log with_fs].
  split; [apply fs_read_write |]. split; [| auto].
  rewrite fs_read_write_ne; [apply fs_read_write | assumption].
Qed.

Lemma apply_fix_log (failure : FailureRecord) (w : World) :
  ∃ es, w_log (fst (apply_fix failure w)) = w_log w ++ es
        ∧ Forall (λ e, is_work_event e = true) es.
Proof.
  destruct (apply_fix_cases failure w) as (w' & r & -> & Hcases). cbn [fst].
  destruct Hcases as [[Hl _] | (chunks & Hl & _)].
  - exists []. rewrite app_nil_r. split; [assumption | constructor].
  - exists [EvLLM chunks (f_error failure)]. split; [assumption |].
    repeat constructor.
Qed.

Lemma rollback_log (files : list string) (w : World) :
  w_log (fst (rollback_changes files w))
  = w_log w ++ match files with [] => [] | _ => [EvRollback files] end.
Proof.
  destruct files as [|f fs]; cbn [rollback_changes].
  - unfold ret. cbn [fst]. now rewrite app_nil_r.
  - unfold bind, log_event, on_fs. cbn [w_fs emit].
    destruct (rollback_changes_vcs (f :: fs) (w_fs w)) as [fs' [[] | e]];
      reflexivity.
Qed.

Lemma fix_failures_cons (failure : FailureRecord) (rest : list FailureRecord)
    (modified_files : list string) (w : World) :
  fix_failures (failure :: rest) modified_files w
  = match apply_fix failure w with
    | (w1, Ret fix_ok) =>
        if fix_ok && negb (in_list (f_file failure) modified_files)
        then fix_failures rest (modified_files ++ [f_file failure]) w1
        else match rollback_changes modified_files w1 with
             | (w2, Ret _) =>
                 (w2, Ret (inr (mkReport "error"
                                  ("Could not fix " +:+ f_file failure
                                     +:+ " automatically."))))
             | (w2, Raise e) => (w2, Raise e)
             end
    | (w1, Raise e) => (w1, Raise e)
    end.
Proof.
  cbn [fix_failures]. unfold bind, ret.
  destruct (apply_fix failure w) as [w1 [fix_ok | e]]; [| reflexivity].
  destruct (fix_ok && negb (in_list (f_file failure) modified_files));
    [reflexivity |].
  destruct (rollback_changes modified_files w1) as [w2 [[] | e]]; reflexivity.
Qed.

Lemma retry_loop_succ (n : nat) (modified_files : list string) (w : World) :
  retry_loop (S n) modified_files w
  = match parse_test_failures (run_pytest (w_fs w)) with
    | [] => (emit (emit w EvTestRun)
               (EvPush "All tests passed! Automated fix commits."),
             Ret report_success)
    | failures =>
        match fix_failures failures modified_files (emit w EvTestRun) with
        | (w1, Ret (inl modified')) => retry_loop n modified' w1
        | (w1, Ret (inr report)) => (w1, Ret report)
        | (w1, Raise e) => (w1, Raise e)
        end
    end.
Proof.
  cbn [retry_loop]. unfold bind, run_tests, push_to_github, log_event, ret.
  destruct (parse_test_failures (run_pytest (w_fs w))) as [|failure rest].
  - reflexivity.
  - destruct (fix_failures (failure :: rest) modified_files (emit w EvTestRun))
      as [w1 [[modified' | report] | e]]; reflexivity.
Qed.

Lemma fix_failures_trace (failures : list FailureRecord) :
  ∀ modified_files w,
    ∃ body tail,
      w_log (fst (fix_failures failures modified_files w))
      = w_log w ++ body ++ tail
      ∧ Forall (λ e, is_work_event e = true) body
      ∧ (tail = [] ∨ ∃ files, files ≠ [] ∧ tail = [EvRollback files])
      ∧ (∀ m, snd (fix_failures failures modified_files w) = Ret (inl m) →
              tail = []).
Proof.
  induction failures as [|failure rest IH]; intros modified_files w.
  - exists [], []. cbn [fix_failures]. unfold ret. cbn [fst].
    rewrite !app_nil_r.
    split; [reflexivity |]. split; [constructor |]. split; [now left | auto].
  - rewrite fix_failures_cons.
    destruct (apply_fix_log failure w) as (es & Hes & Hwork).
    destruct (apply_fix failure w) as [w1 [fix_ok | e]]; cbn [fst] in Hes.
    2: { exists es, []. cbn [fst snd]. rewrite app_nil_r.
         split; [assumption |]. split; [assumption |].
         split; [now left | intros m [=]]. }
    destruct (fix_ok && negb (in_list (f_file failure) modified_files)).
    + destruct (IH (modified_files ++ [f_file failure]) w1)
        as (body & tail & Hlog & Hbody & Htail & Hinl).
      exists (es ++ body), tail. rewrite Hlog, Hes, <- !app_assoc.
      split; [reflexivity |]. split; [now apply Forall_app |].
      split; assumption.
    + pose proof (rollback_log modified_files w1) as Hrb.
      exists es, (match modified_files with
                  | [] => []
                  | _ => [EvRollback modified_files]
                  end).
      destruct (rollback_changes modified_files w1) as [w2 [[] | e]];
        cbn [fst snd] in *; rewrite Hrb, Hes, <- app_assoc;
        (split; [reflexivity |]); (split; [assumption |]);
        (split; [| intros m [=]]);
        (destruct modified_files as [|f fs];
          [now left
          | right; exists (f :: fs); split; [discriminate | reflexivity]]).
Qed.

Ltac log_eq :=
  cbn [emit w_log app]; rewrite <- ?app_assoc; cbn [app];
  rewrite <- ?app_assoc; reflexivity.

Lemma retry_loop_trace (attempts : nat) :
  ∀ modified_files w,
    ∃ body tail,
      w_log (fst (retry_loop attempts modified_files w))
      = w_log w ++ body ++ tail
      ∧ Forall (λ e, is_work_event e = true) body
      ∧ cycle_end tail
      ∧ (∀ message, tail = [EvPush message] →
           snd (retry_loop attempts modified_files w) = Ret report_success).
Proof.
  induction attempts as [|n IH]; intros modified_files w.
  - exists [], []. cbn [retry_loop]. unfold ret. cbn [fst].
    rewrite !app_nil_r.
    split; [reflexivity |]. split; [constructor |].
    split; [now left | intros m [=]].
  - rewrite retry_loop_succ.
    destruct (parse_test_failures (run_pytest (w_fs w))) as [|failure rest].
    + exists [EvTestRun], [EvPush "All tests passed! Automated fix commits."].
      cbn [fst snd].
      split; [log_eq |]. split; [repeat constructor |].
      split; [right; right; eauto | reflexivity].
    + destruct (fix_failures_trace (failure :: rest) modified_files (emit w EvTestRun))
        as (body & tail & Hlog & Hbody & Htail & Hinl).
      destruct (fix_failures (failure :: rest) modified_files (emit w EvTestRun))
        as [w1 [[modified' | report] | e]]; cbn [fst snd] in *.
      * rewrite (Hinl modified' eq_refl), app_nil_r in Hlog.
        destruct (IH modified' w1) as (body2 & tail2 & Hlog2 & Hbody2 & Hend2 & Hpush2).
        exists (EvTestRun :: body ++ body2), tail2.
        rewrite Hlog2, Hlog.
        split; [log_eq |]. split; [| split; assumption].
        constructor; [reflexivity | now apply Forall_app].
      * exists (EvTestRun :: body), tail.
        rewrite Hlog.
        split; [log_eq |]. split; [now constructor |]. split.
        -- destruct Htail as [-> | Hrb]; [now left | right; now left].
        -- intros m ->. destruct Htail as [[=] | (files & _ & [=])].
      * exists (EvTestRun :: body), tail. rewrite Hlog.
        split; [log_eq |]. split; [now constructor |]. split.
        -- destruct Htail as [-> | Hrb]; [now left | right; now left].
        -- intros m ->. destruct Htail as [[=] | (files & _ & [=])].
Qed.

(** X11. What a cycle adds to the log is a run of test runs and calls to
    the AI backend, ended by at most one more event: one rollback, of a
    list of files that is not empty, or one push, which comes only with
    the success report.  Nothing follows a rollback or a push. *)
Theorem retry_tests_trace (max_retries : Z) (w : World) :
  ∃ body tail,
    w_log (fst (retry_tests max_retries w)) = w_log w ++ body ++ tail
    ∧ Forall (λ e, is_work_event e = true) body
    ∧ cycle_end tail
    ∧ (∀ message, tail = [EvPush message] →
         snd (retry_tests max_retries w) = Ret report_success).
Proof. apply retry_loop_trace. Qed.

(** X12. An exception of the learned tier leaves dispatch as an exception,
    and the retry loop with it, with no report: so it is when the tier
    cannot build its path because the file name is made of [tests] parts
    only and the pattern tier has not fixed the failure. *)
Theorem learned_tier_exception_escapes (failure : FailureRecord)
    (rest : list FailureRecord) (max_retries : Z) (w w1 : World) (e : exn)
    (Hpos : (0 < max_retries)%Z)
    (Hparse : parse_test_failures (run_pytest (w_fs w)) = failure :: rest)
    (Hpath : learned_fix_path (f_file failure) = Raise e)
    (Hpattern : _apply_known_pattern failure (emit w EvTestRun) = (w1, Ret false)) :
  apply_fix failure (emit w EvTestRun) = (w1, Raise e)
  ∧ retry_tests max_retries w = (w1, Raise e).
Proof.
  assert (Hfix : apply_fix failure (emit w EvTestRun) = (w1, Raise e)).
  { unfold apply_fix. unfold bind at 1. rewrite Hpattern.
    unfold bind at 1. unfold _apply_adaptive_learning_fix. rewrite Hpath.
    reflexivity. }
  split; [exact Hfix |].
  unfold retry_tests. destruct (Z.to_nat max_retries) as [|n] eqn:Hn; [lia |].
  cbn [retry_loop]. unfold bind at 1, run_tests. rewrite Hparse.
  unfold bind at 1. cbn [fix_failures]. unfold bind at 1. rewrite Hfix.
  reflexivity.
Qed.


Lemma readlines_not_LF (c : ascii) (s : string) :
  Ascii.eqb c LF = false →
  readlines (String c s)
  = match readlines s with
    | [] => [String c EmptyString]
    | l :: ls => String c l :: ls
    end.
Proof. intros Hc. cbn [readlines]. now rewrite Hc. Qed.

Lemma readlines_replace_tab (s : string) :
  readlines (replace_char TAB "    " s)
  = map (replace_char TAB "    ") (readlines s).
Proof.
  induction s as [|c s IH]; [reflexivity |].
  cbn [replace_char]. destruct (Ascii.eqb c TAB) eqn:Ec.
  - apply Ascii.eqb_eq in Ec. subst c.
    change ("    " +:+ replace_char TAB "    " s)
      with (String " " (String " " (String " " (String " "
              (replace_char TAB "    " s))))).
    rewrite !readlines_not_LF by reflexivity. rewrite IH.
    destruct (readlines s) as [|l ls]; reflexivity.
  - destruct (Ascii.eqb c LF) eqn:El.
    + apply Ascii.eqb_eq in El. subst c. cbn [readlines].
      change (Ascii.eqb LF LF) with true. cbn iota. rewrite IH.
      cbn [map replace_char]. now rewrite Ec.
    + rewrite !readlines_not_LF by assumption. rewrite IH.
      destruct (readlines s) as [|l ls]; cbn [map replace_char];
        now rewrite Ec.
Qed.

Lemma str_in_char_cons (a c : ascii) (s : string) :
  str_in (String a EmptyString) (String c s)
  = Ascii.eqb a c || str_in (String a EmptyString) s.
Proof.
  cbn [str_in]. unfold startswith at 1. cbn [strip_prefix].
  now destruct (Ascii.eqb a c).
Qed.

Lemma replace_tab_clears (s : string) :
  str_in (String TAB EmptyString) (replace_char TAB "    " s) = false.
Proof.
  induction s as [|c s IH]; [reflexivity |].
  cbn [replace_char]. destruct (Ascii.eqb c TAB) eqn:Ec.
  - change ("    " +:+ replace_char TAB "    " s)
      with (String " " (String " " (String " " (String " "
              (replace_char TAB "    " s))))).
    rewrite !str_in_char_cons, IH. reflexivity.
  - rewrite str_in_char_cons, IH, Ascii.eqb_sym, Ec. reflexivity.
Qed.

(** X15. On an existing target the indentation fix always reports success;
    the file it leaves holds no tab, has as many lines as before, and each
    line is the old one with four spaces for every tab. *)
Theorem quick_fix_indentation_clears_tabs (file_name text : string)
    (w : World)
    (Hfile : fs_read (w_fs w) (test_path file_name) = Some text) :
  ∃ text',
    _quick_fix_indentation file_name w
    = (with_fs w (fs_write (w_fs w) (test_path file_name) text'), Ret true)
    ∧ str_in (String TAB EmptyString) text' = false
    ∧ readlines text' = map (replace_char TAB "    ") (readlines text)
    ∧ length (readlines text') = length (readlines text).
Proof.
  exists (replace_char TAB "    " text).
  rewrite indentation_run, Hfile.
  split; [reflexivity |]. split; [apply replace_tab_clears |].
  rewrite readlines_replace_tab. split; [reflexivity |].
  now rewrite length_map.
Qed.

Lemma insert_at_sublist {A} (i : nat) (x : A) (l : list A) :
  sublist l (Py.insert_at i x l).
Proof.
  unfold Py.insert_at. rewrite <- (take_drop i l) at 1.
  apply sublist_app; [reflexivity |]. now apply sublist_cons.
Qed.

Lemma insert_at_head {A} (n : nat) (x : A) (l : list A) :
  head (Py.insert_at (n + 1) x l) = head l ∨ l = [].
Proof.
  destruct l as [|a l]; [now right | left].
  unfold Py.insert_at. now rewrite Nat.add_1_r.
Qed.

Lemma index_below_bound (line_no : json) (n i : nat) :
  Py.index_below line_no n = Ret (Some i) → i < n.
Proof.
  destruct line_no as [| b | z | num den | s | l | d]; cbn [Py.index_below];
    try discriminate.
  - destruct b; destruct (_ <? n) eqn:E; intros [=]; subst;
      now apply Nat.ltb_lt in E.
  - destruct ((0 <=? z)%Z && (z <? Z.of_nat n)%Z) eqn:E; intros [=]; subst.
    apply andb_true_iff in E as [E1 E2].
    apply Z.leb_le in E1. apply Z.ltb_lt in E2. lia.
  - destruct ((0 <? den)%Z && (0 <=? num)%Z && (num <? Z.of_nat n * den)%Z);
      intros [=].
Qed.

(** X16. The loop of a [snippet_inject] fix only adds lines: the lines of
    the file stay, in their order, the first line stays the first (and an
    empty file stays empty), and at most one line is added for each item
    of [target_lines]. *)
Theorem inject_snippets_keeps_lines (items : list json)
    (file_lines out : list string)
    (Hrun : inject_snippets items file_lines = Ret out) :
  sublist file_lines out
  ∧ head out = head file_lines
  ∧ length file_lines ≤ length out ≤ length file_lines + length items.
Proof.
  revert file_lines Hrun.
  induction items as [|patch_line rest IH]; intros file_lines Hrun.
  - cbn [inject_snippets] in Hrun. injection Hrun as <-.
    split; [reflexivity |]. split; [reflexivity |]. cbn [length]. lia.
  - cbn [inject_snippets] in Hrun.
    destruct (Py.get patch_line "line_no" JNull) as [line_no | e];
      cbn [rbind] in Hrun; [| discriminate].
    destruct (Py.get patch_line "insert_after" (JStr EmptyString))
      as [[| b | z | num den | s | l | d] | e];
      cbn [rbind] in Hrun; try discriminate.
    destruct (Py.index_below line_no (length file_lines))
      as [[i |] | e] eqn:Hi; cbn [rbind] in Hrun; [| | discriminate].
    + apply index_below_bound in Hi.
      destruct (IH _ Hrun) as (Hsub & Hhead & Hlen).
      assert (Hins : length (Py.insert_at (i + 1)
                               (strip s +:+ String LF EmptyString) file_lines)
                     = S (length file_lines)).
      { unfold Py.insert_at.
        rewrite length_app, length_take. cbn [length]. rewrite length_drop. lia. }
      rewrite Hins in Hlen.
      split; [etrans; [apply (insert_at_sublist (i + 1)) | exact Hsub] |].
      split; [| cbn [length]; lia].
      rewrite Hhead.
      destruct (insert_at_head i (strip s +:+ String LF EmptyString) file_lines)
        as [Hh | ->]; [exact Hh | cbn [length] in Hi; lia].
    + destruct (IH _ Hrun) as (Hsub & Hhead & Hlen).
      split; [exact Hsub |]. split; [exact Hhead | cbn [length]; lia].
Qed.

Lemma greedy_unfold cls (p : Re.pattern) (c : ascii) (s : string) :
  Re.match_here (Re.Greedy1 cls :: p) (String c s)
  = if cls c then
      match Re.match_here (Re.Greedy1 cls :: p) s with
      | Some (g :: gs, r) => Some (String c g :: gs, r)
      | _ =>
          match Re.match_here p s with
          | Some (gs, r) => Some (String c EmptyString :: gs, r)
          | None => None
          end
      end
    else None.
Proof. reflexivity. Qed.

(** A greedy group at the end of a pattern stops at the first character
    outside its class. *)
Lemma greedy_stops cls (stop : ascii) (g r : string) :
  g ≠ EmptyString → forall_char cls g = true → cls stop = false →
  Re.match_here [Re.Greedy1 cls] (g +:+ String stop r)
  = Some ([g], String stop r).
Proof.
  intros Hg Hcls Hstop. induction g as [|c g IH]; [congruence |].
  cbn [forall_char] in Hcls. apply andb_prop in Hcls as [Hc Hcls].
  change (String c g +:+ String stop r) with (String c (g +:+ String stop r)).
  rewrite greedy_unfold, Hc.
  destruct g as [|c' g].
  - change (EmptyString +:+ String stop r) with (String stop r).
    rewrite greedy_unfold, Hstop. reflexivity.
  - now rewrite IH.
Qed.

Lemma assert_line_match (a b r : string) :
  a ≠ EmptyString →
  forall_char (λ c, Re.dot c && negb (Ascii.eqb c " ")) a = true →
  b ≠ EmptyString → forall_char Re.dot b = true →
  Re.match_here assert_line_pattern
    ("assert " +:+ a +:+ " == " +:+ b +:+ String LF r)
  = Some ([a; b], String LF r).
Proof.
  intros Ha Hac Hb Hbc. unfold assert_line_pattern. rewrite lit_step.
  change (" == " +:+ b +:+ String LF r)
    with (String " " ("== " +:+ b +:+ String LF r)).
  apply lazy_stops_at_lit; [assumption | assumption |].
  change (String " " ("== " +:+ b +:+ String LF r))
    with (" == " +:+ b +:+ String LF r).
  rewrite lit_step. now apply greedy_stops.
Qed.

Lemma assert_line_sub (expand : list string → string) (indent a b : string) :
  forall_char (λ c, negb (Ascii.eqb c "a")) indent = true →
  a ≠ EmptyString →
  forall_char (λ c, Re.dot c && negb (Ascii.eqb c " ")) a = true →
  b ≠ EmptyString → forall_char Re.dot b = true →
  re_sub assert_line_pattern expand
    (indent +:+ "assert " +:+ a +:+ " == " +:+ b +:+ String LF EmptyString)
  = indent +:+ expand [a; b] +:+ String LF EmptyString.
Proof.
  intros Hi Ha Hac Hb Hbc. unfold re_sub. cbn [re_sub_from].
  unfold assert_line_pattern at 1.
  rewrite (search_after_clean_prefix "a" "ssert " _ indent _ [a; b]
             (String LF EmptyString) Hi (assert_line_match a b _ Ha Hac Hb Hbc)).
  now destruct (String.length _).
Qed.

Lemma assert_line_test (indent a b : string) :
  is_assert_line
    (indent +:+ "assert " +:+ a +:+ " == " +:+ b +:+ String LF EmptyString)
  = true.
Proof.
  unfold is_assert_line. rewrite str_in_app_mid. cbn [andb].
  replace (indent +:+ "assert " +:+ a +:+ " == " +:+ b +:+ String LF EmptyString)
    with ((indent +:+ "assert " +:+ a +:+ " ") +:+ "=="
            +:+ (" " +:+ b +:+ String LF EmptyString)).
  - apply str_in_app_mid.
  - rewrite !sapp_assoc. reflexivity.
Qed.

Lemma rewrite_first_assert_first (expand : list string → string)
    (line : string) (before after : list string) :
  existsb is_assert_line before = false → is_assert_line line = true →
  rewrite_first_assert (Ret expand) (before ++ line :: after)
  = Ret (Some (before ++ re_sub assert_line_pattern expand line :: after)).
Proof.
  intros Hb Hl. induction before as [|l ls IH]; cbn [app rewrite_first_assert].
  - now rewrite Hl.
  - cbn [existsb] in Hb. apply orb_false_elim in Hb as [-> Hb].
    now rewrite IH.
Qed.

Lemma assertion_run (file_name error_msg : string) (w : World) :
  _quick_fix_assertion_mismatch file_name error_msg w
  = match Re.search assertion_error_pattern error_msg with
    | Some (_, [expected; actual], _) =>
        match fs_read (w_fs w) (test_path file_name) with
        | Some text =>
            match rewrite_first_assert
                    (re_template ("assert " +:+ actual +:+ " == " +:+ actual
                                    +:+ String LF EmptyString))
                    (readlines text) with
            | Ret (Some lines) =>
                (with_fs w (fs_write (w_fs w) (test_path file_name)
                              (writelines lines)), Ret true)
            | _ => (w, Ret false)
            end
        | None => (w, Ret false)
        end
    | _ => (w, Ret false)
    end.
Proof.
  unfold _quick_fix_assertion_mismatch.
  destruct (Re.search assertion_error_pattern error_msg) as [[[pre gs] post] |];
    [| reflexivity].
  destruct gs as [|expected [|actual [|x gs]]]; try reflexivity.
  unfold bind, path_exists, fs_exists, try_except, read_text, write_text,
    lift, ret.
  destruct (fs_read (w_fs w) (test_path file_name)) as [text |] eqn:Hf;
    crunch; [| reflexivity].
  destruct (rewrite_first_assert _ (readlines text)) as [[lines |] | e];
    reflexivity.
Qed.

Lemma str_in_char_app (c : ascii) (a b : string) :
  str_in (String c EmptyString) (a +:+ b)
  = str_in (String c EmptyString) a || str_in (String c EmptyString) b.
Proof.
  induction a as [|x a IH].
  - cbn [String.append]. change (str_in (String c EmptyString) EmptyString)
      with false. reflexivity.
  - cbn [String.append]. rewrite !str_in_char_cons, IH. apply orb_assoc.
Qed.

(** X17. The assertion fix rewrites one line only, the first that holds
    both [assert ] and [==].  On a line [<indent>assert <a> == <b>] that
    ends with a line feed, the replacement brings a line feed of its own
    and the old one stays behind it, so that an empty line follows the
    rewritten assertion.  This is for an actual value that holds no
    backslash: [re.sub] takes a replacement without backslash as it is,
    which is all that is assumed of it. *)
Theorem quick_fix_assertion_leaves_blank_line
    (file_name error_msg pre expected actual post text indent a b : string)
    (before after : list string) (w : World)
    (Hmatch : Re.search assertion_error_pattern error_msg
              = Some (pre, [expected; actual], post))
    (Hactual : str_in (String Json.BS EmptyString) actual = false)
    (Hfile : fs_read (w_fs w) (test_path file_name) = Some text)
    (Hlines : readlines text
              = before ++ (indent +:+ "assert " +:+ a +:+ " == " +:+ b
                             +:+ String LF EmptyString) :: after)
    (Hbefore : existsb is_assert_line before = false)
    (Hindent : forall_char (λ c, negb (Ascii.eqb c "a")) indent = true)
    (Ha : a ≠ EmptyString)
    (Ha_word : forall_char (λ c, Re.dot c && negb (Ascii.eqb c " ")) a = true)
    (Hb : b ≠ EmptyString)
    (Hb_line : forall_char Re.dot b = true)
    (Hliteral : ∀ repl, str_in (String Json.BS EmptyString) repl = false →
                        re_template repl = Ret (λ _, repl)) :
  _quick_fix_assertion_mismatch file_name error_msg w
  = (with_fs w
       (fs_write (w_fs w) (test_path file_name)
          (writelines before
             +:+ (indent +:+ "assert " +:+ actual +:+ " == " +:+ actual
                    +:+ String LF (String LF EmptyString))
             +:+ writelines after)),
     Ret true).
Proof.
  assert (Hrepl : str_in (String Json.BS EmptyString)
                    ("assert " +:+ actual +:+ " == " +:+ actual
                       +:+ String LF EmptyString) = false).
  { rewrite !str_in_char_app, Hactual. reflexivity. }
  rewrite assertion_run, Hmatch, Hfile, Hlines, (Hliteral _ Hrepl).
  rewrite (rewrite_first_assert_first _ _ _ _ Hbefore (assert_line_test indent a b)).
  rewrite (assert_line_sub _ indent a b Hindent Ha Ha_word Hb Hb_line).
  rewrite writelines_app. cbn [writelines].
  do 2 f_equal. f_equal. rewrite !sapp_assoc. reflexivity.
Qed.

(** A greedy group stops at the first character outside its class when
    the rest of the pattern matches from there. *)
Lemma greedy_stops_then cls (p : Re.pattern) (stop : ascii) (g rest : string)
    gs r :
  g ≠ EmptyString → forall_char cls g = true → cls stop = false →
  Re.match_here p (String stop rest) = Some (gs, r) →
  Re.match_here (Re.Greedy1 cls :: p) (g +:+ String stop rest)
  = Some (g :: gs, r).
Proof.
  intros Hg Hcls Hstop Hrest. induction g as [|c g IH]; [congruence |].
  cbn [forall_char] in Hcls. apply andb_prop in Hcls as [Hc Hcls].
  change (String c g +:+ String stop rest)
    with (String c (g +:+ String stop rest)).
  rewrite greedy_unfold, Hc.
  destruct g as [|c' g].
  - change (EmptyString +:+ String stop rest) with (String stop rest).
    rewrite greedy_unfold, Hstop, Hrest. reflexivity.
  - now rewrite IH.
Qed.

Lemma type_error_extracts (pre digits post : string) :
  pre ≠ EmptyString →
  forall_char (λ c, Re.dot c && negb (Ascii.eqb c "(")) pre = true →
  digits ≠ EmptyString → forall_char Re.digit digits = true →
  Re.search type_error_pattern
    (pre +:+ "() missing " +:+ digits +:+ " required positional argument"
       +:+ post)
  = Some (EmptyString, [pre; digits], post).
Proof.
  intros Hp Hpc Hd Hdc.
  assert (Hm : Re.match_here type_error_pattern
                 (pre +:+ "() missing " +:+ digits
                    +:+ " required positional argument" +:+ post)
               = Some ([pre; digits], post)).
  { unfold type_error_pattern.
    change ("() missing " +:+ digits +:+ " required positional argument" +:+ post)
      with (String "(" (") missing " +:+ digits
                          +:+ " required positional argument" +:+ post)).
    apply lazy_stops_at_lit; [assumption | assumption |].
    change (String "(" (") missing " +:+ digits
                          +:+ " required positional argument" +:+ post))
      with ("() missing " +:+ digits +:+ " required positional argument" +:+ post).
    rewrite lit_step.
    change (" required positional argument" +:+ post)
      with (String " " ("required positional argument" +:+ post)).
    apply greedy_stops_then; [assumption | assumption | reflexivity |].
    change (String " " ("required positional argument" +:+ post))
      with (" required positional argument" +:+ post).
    now rewrite lit_step. }
  destruct (pre +:+ "() missing " +:+ digits
              +:+ " required positional argument" +:+ post);
    cbn [Re.search]; now rewrite Hm.
Qed.

(** X18. In an error text [<text>() missing <n> required positional
    argument...] the function name the type-error fix takes is all the text
    before the first [(], whatever it holds: for pytest's [TypeError: f()
    missing ...] it is [TypeError: f].  That text is what the fix looks for
    in the lines of the target and what it writes back, with [n] times
    [None]; the file is written only when a line was found. *)
Theorem quick_fix_type_error_name_capture
    (file_name pre digits post text : string) (w : World)
    (Hpre : pre ≠ EmptyString)
    (Hpre_chars : forall_char (λ c, Re.dot c && negb (Ascii.eqb c "(")) pre
                  = true)
    (Hdigits : digits ≠ EmptyString)
    (Hdigit_chars : forall_char Re.digit digits = true)
    (Hfile : fs_read (w_fs w) (test_path file_name) = Some text) :
  let error_msg :=
    pre +:+ "() missing " +:+ digits +:+ " required positional argument"
      +:+ post in
  let repl :=
    pre +:+ "(" +:+ String Json.BS "1, "
      +:+ placeholders (Py.int_of_digits digits) +:+ ")" in
  _quick_fix_type_error file_name error_msg w
  = match add_placeholders pre repl (readlines text) with
    | Ret (lines, true) =>
        (with_fs w (fs_write (w_fs w) (test_path file_name) (writelines lines)),
         Ret true)
    | _ => (w, Ret false)
    end.
Proof.
  cbn zeta. unfold _quick_fix_type_error.
  rewrite (type_error_extracts pre digits post Hpre Hpre_chars Hdigits Hdigit_chars).
  unfold bind, path_exists, fs_exists, try_except, read_text, write_text,
    lift, ret.
  crunch.
  destruct (add_placeholders _ _ (readlines text)) as [[lines [|]] | e];
    reflexivity.
Qed.

End MoreAgentFacts.

(** * The further properties on the test bench *)

Lemma all_pass_output_clean (fs : FS) (line : string) :
  line ∈ split_char LF (@run_pytest (bench sc_all_pass) fs) →
  ¬ well_formed_line line.
Proof.
  change (split_char LF (@run_pytest (bench sc_all_pass) fs))
    with ["2 passed in 0.01s"].
  intros Hin%list_elem_of_singleton Hwf. subst line.
  apply ParserFacts.failed_line_complete in Hwf; [| reflexivity].
  destruct Hwf as [r Hr]. vm_compute in Hr. discriminate Hr.
Qed.

(** A suite that passes: three attempts allowed, one used. *)
Lemma retry_tests_all_pass_witness :
  let w := @init_world (bench sc_all_pass) fs_one_file in
  @retry_tests (bench sc_all_pass) 3 w
  = (emit (emit w EvTestRun) (EvPush "All tests passed! Automated fix commits."),
     Ret report_success).
Proof.
  cbn zeta.
  apply (@retry_tests_all_pass (bench sc_all_pass) 3
           (@init_world (bench sc_all_pass) fs_one_file)); [lia |].
  apply all_pass_output_clean.
Defined.

(** A pass over two failures in two files, both fixed by the indentation
    tier. *)
Lemma fix_failures_completes_witness :
  let run := @fix_failures (bench sc_two_files) two_file_failures []
               (@init_world (bench sc_two_files) fs_two_files) in
  snd run = Ret (inl ["a.py"; "b.py"])
  ∧ NoDup (map f_file two_file_failures).
Proof.
  cbn zeta.
  assert (Hrun : @fix_failures (bench sc_two_files) two_file_failures []
                   (@init_world (bench sc_two_files) fs_two_files)
                 = (fst (@fix_failures (bench sc_two_files) two_file_failures []
                           (@init_world (bench sc_two_files) fs_two_files)),
                    Ret (inl ["a.py"; "b.py"])))
    by (vm_compute; reflexivity).
  split; [vm_compute; reflexivity |].
  exact (proj1 (proj2 (@fix_failures_completes (bench sc_two_files)
                         two_file_failures [] ["a.py"; "b.py"] _ _ Hrun))).
Defined.

(** A fix stored for [ValueError: boom] in a store that knows [KeyError],
    looked up with a longer text that holds the stored one. *)
Lemma store_then_search_witness :
  let w := mkWorld fs_one_file [("KeyError", "def g(): pass")] [] in
  let w' := fst (@_store_learned_fix (bench sc_ai_ok) "ValueError: boom"
                   "def helper(): pass" w) in
  str_in "ValueError: boom" "E   ValueError: boom at line 3" = true
  ∧ _search_learned_fix (w_db w') "E   ValueError: boom at line 3"
    = Some "def helper(): pass".
Proof.
  cbn zeta. split; [reflexivity |].
  refine (proj1 (@store_then_search (bench sc_ai_ok) "ValueError: boom"
                   "def helper(): pass" "E   ValueError: boom at line 3"
                   (mkWorld fs_one_file [("KeyError", "def g(): pass")] [])
                   eq_refl _)).
  intros k Hk%list_elem_of_singleton _. subst k. reflexivity.
Defined.

(** The indentation fix of [a.py] leaves [b.py] alone. *)
Lemma matcher_touches_target_only_witness :
  let w := @init_world (bench sc_two_files) fs_two_files in
  let w' := fst (@run_matcher (bench sc_two_files) Indentation "a.py"
                   "IndentationError: unexpected indent" w) in
  @resolve (bench sc_two_files) "tests/b.py"
  ≠ @resolve (bench sc_two_files) (test_path "a.py")
  ∧ @fs_read (bench sc_two_files) (w_fs w') "tests/b.py"
    = @fs_read (bench sc_two_files) (w_fs w) "tests/b.py".
Proof.
  cbn zeta.
  assert (Hother : @resolve (bench sc_two_files) "tests/b.py"
                   ≠ @resolve (bench sc_two_files) (test_path "a.py"))
    by (vm_compute; discriminate).
  split; [exact Hother |].
  exact (proj1 (@matcher_touches_target_only (bench sc_two_files) Indentation
                  "a.py" "IndentationError: unexpected indent" "tests/b.py"
                  (@init_world (bench sc_two_files) fs_two_files) Hother)).
Defined.

(** The stub of [add] put into a class [Calc] that lacks it. *)
Lemma quick_fix_missing_attribute_inserts_witness :
  let w := @init_world (bench sc_ai_ok) fs_calc in
  @_quick_fix_missing_attribute (bench sc_ai_ok) "t.py"
    "AttributeError: 'Calc' object has no attribute 'add'" w
  = (with_fs w
       (@fs_write (bench sc_ai_ok) (w_fs w) (test_path "t.py")
          ("class Calc:" +:+ String LF (stub_method "add"
             +:+ "    pass" +:+ String LF EmptyString))),
     Ret true).
Proof.
  cbn zeta.
  exact (proj1 (@quick_fix_missing_attribute_inserts (bench sc_ai_ok)
                  "t.py" "AttributeError: " "Calc" "add" EmptyString calc_text
                  (@init_world (bench sc_ai_ok) fs_calc)
                  eq_refl ltac:(discriminate) eq_refl ltac:(discriminate)
                  eq_refl eq_refl)
           [] ("class Calc:" +:+ String LF EmptyString)
           ["    pass" +:+ String LF EmptyString] eq_refl eq_refl eq_refl).
Defined.

Lemma bench_patch_keeps_backup (sc : Scenario) (p : list string) (fs : FS) :
  @fs_read (bench sc) (fst (@apply_diff_patch (bench sc) [t_py] p fs))
    (t_py +:+ ".backup")
  = @fs_read (bench sc) fs (t_py +:+ ".backup").
Proof.
  unfold fs_read. cbn [apply_diff_patch bench bench_apply fst foldr].
  apply lookup_insert_ne. vm_compute. discriminate.
Qed.

(** A stored diff whose application stops half-way: the target gets its
    old content back. *)
Lemma learned_tier_backup_guard_witness :
  let w := mkWorld fs_one_file db_diff [] in
  ∃ w' b,
    @_apply_adaptive_learning_fix (bench sc_ai_breaks) boom w = (w', Ret b)
    ∧ @fs_read (bench sc_ai_breaks) (w_fs w') (t_py +:+ ".backup") = Some "x = 1"
    ∧ ((∃ w1 e, @apply_learned_payload (bench sc_ai_breaks) t_py
                  "diff --git a/t.py b/t.py" w = (w1, Raise e)) →
       b = false ∧ @fs_read (bench sc_ai_breaks) (w_fs w') t_py = Some "x = 1").
Proof.
  cbn zeta.
  refine (@learned_tier_backup_guard (bench sc_ai_breaks) boom
            (mkWorld fs_one_file db_diff []) t_py "x = 1"
            "diff --git a/t.py b/t.py" eq_refl eq_refl eq_refl
            ltac:(discriminate) ltac:(vm_compute; discriminate) _ _).
  - apply bench_patch_keeps_backup.
  - reflexivity.
Defined.

(** A stored function definition appended to the target. *)
Lemma learned_tier_appends_definition_witness :
  let w := mkWorld fs_one_file db_helper [] in
  ∃ w',
    @_apply_adaptive_learning_fix (bench sc_ai_ok) boom w = (w', Ret true)
    ∧ @fs_read (bench sc_ai_ok) (w_fs w') t_py
      = Some ("x = 1" +:+ String LF "def helper(): pass" +:+ String LF EmptyString)
    ∧ @fs_read (bench sc_ai_ok) (w_fs w') (t_py +:+ ".backup") = Some "x = 1"
    ∧ w_db w' = w_db w ∧ w_log w' = w_log w.
Proof.
  cbn zeta.
  exact (@learned_tier_appends_definition (bench sc_ai_ok) boom
           (mkWorld fs_one_file db_helper []) t_py "x = 1" "def helper(): pass"
           eq_refl eq_refl eq_refl ltac:(vm_compute; discriminate)
           eq_refl eq_refl eq_refl).
Defined.

(** A failure reported for a file called [tests]: the cycle ends with the
    exception of the path join. *)
Lemma learned_tier_exception_escapes_witness :
  let w := @init_world (bench sc_tests_only) fs_one_file in
  @learned_fix_path (bench sc_tests_only) "tests" = Raise TypeError
  ∧ @retry_tests (bench sc_tests_only) 3 w = (emit w EvTestRun, Raise TypeError).
Proof.
  cbn zeta. split; [reflexivity |].
  exact (proj2 (@learned_tier_exception_escapes (bench sc_tests_only)
                  tests_only [] 3 (@init_world (bench sc_tests_only) fs_one_file)
                  _ TypeError ltac:(lia) eq_refl eq_refl eq_refl)).
Defined.

(** The indentation fix on a file of one line that starts with a tab. *)
Lemma quick_fix_indentation_clears_tabs_witness :
  let w := @init_world (bench sc_two_tabs) fs_tabbed in
  ∃ text',
    @_quick_fix_indentation (bench sc_two_tabs) "t.py" w
    = (with_fs w (@fs_write (bench sc_two_tabs) (w_fs w) (test_path "t.py") text'),
       Ret true)
    ∧ str_in (String TAB EmptyString) text' = false
    ∧ readlines text'
      = map (replace_char TAB "    ") (readlines (String TAB "x = 1"))
    ∧ length (readlines text') = length (readlines (String TAB "x = 1")).
Proof.
  cbn zeta.
  exact (@quick_fix_indentation_clears_tabs (bench sc_two_tabs) "t.py"
           (String TAB "x = 1") (@init_world (bench sc_two_tabs) fs_tabbed)
           eq_refl).
Defined.

(** One snippet put after the first line of a file of one line. *)
Lemma inject_snippets_keeps_lines_witness :
  let file_lines := ["x = 1" +:+ String LF EmptyString] in
  let out := file_lines ++ ["y = 2" +:+ String LF EmptyString] in
  inject_snippets one_snippet file_lines = Ret out
  ∧ sublist file_lines out
  ∧ head out = head file_lines.
Proof.
  cbn zeta.
  assert (Hrun : inject_snippets one_snippet ["x = 1" +:+ String LF EmptyString]
                 = Ret (["x = 1" +:+ String LF EmptyString]
                          ++ ["y = 2" +:+ String LF EmptyString]))
    by reflexivity.
  split; [exact Hrun |].
  destruct (inject_snippets_keeps_lines _ _ _ Hrun) as (Hsub & Hhead & _).
  split; [exact Hsub | exact Hhead].
Defined.

(** The assertion fix on a test that asserts [f(1) == 3] when the error
    reports [3 != 2]. *)
Lemma quick_fix_assertion_leaves_blank_line_witness :
  let w := @init_world (bench sc_ai_ok) fs_assert in
  @_quick_fix_assertion_mismatch (bench sc_ai_ok) "t.py"
    "AssertionError: 3 != 2" w
  = (with_fs w
       (@fs_write (bench sc_ai_ok) (w_fs w) (test_path "t.py")
          ("def test_a():" +:+ String LF
             ("    assert 2 == 2" +:+ String LF (String LF EmptyString)))),
     Ret true).
Proof.
  cbn zeta.
  exact (@quick_fix_assertion_leaves_blank_line (bench sc_ai_ok)
           "t.py" "AssertionError: 3 != 2" EmptyString "3" "2" EmptyString
           assert_text "    " "f(1)" "3"
           ["def test_a():" +:+ String LF EmptyString] []
           (@init_world (bench sc_ai_ok) fs_assert)
           eq_refl eq_refl eq_refl eq_refl eq_refl eq_refl ltac:(discriminate)
           eq_refl ltac:(discriminate) eq_refl (λ _ _, eq_refl)).
Defined.

(** The type-error fix on pytest's message for a call of [foo] that lacks
    two arguments: the name it looks for is [TypeError: foo]. *)
Lemma quick_fix_type_error_name_capture_witness :
  let w := @init_world (bench sc_ai_ok) fs_one_file in
  Re.search type_error_pattern
    "TypeError: foo() missing 2 required positional arguments: 'a' and 'b'"
  = Some (EmptyString, ["TypeError: foo"; "2"], "s: 'a' and 'b'")
  ∧ @_quick_fix_type_error (bench sc_ai_ok) "t.py"
      "TypeError: foo() missing 2 required positional arguments: 'a' and 'b'" w
    = (w, Ret false).
Proof.
  cbn zeta. split; [reflexivity |].
  exact (@quick_fix_type_error_name_capture (bench sc_ai_ok)
           "t.py" "TypeError: foo" "2" "s: 'a' and 'b'" "x = 1"
           (@init_world (bench sc_ai_ok) fs_one_file)
           ltac:(discriminate) eq_refl ltac:(discriminate) eq_refl eq_refl).
Defined.
